(** * Akinator backend (server.js): duplicate detection, prompt rendering,
      tolerant JSON extraction and the bounded retry loop of [/api/step].

    The development is a shallow embedding of [src/server.js].  JavaScript
    strings are sequences of UTF-16 code units, numbers are IEEE 754
    binary64 values ([spec_float] with [prec = 53], [emax = 1024]), parsed
    JSON is an inductive type of values, and exceptions are an explicit
    result type.  Three built-ins of the engine are not unfolded and are
    taken from classes: Unicode lower-casing ([CaseConversion]),
    Number-to-String conversion ([NumberFormat]) and [JSON.parse]
    ([JsonParser]). *)

From Stdlib Require Import ZArith NArith List String Ascii Bool Lia.
From Stdlib Require Import Floats.SpecFloat.
From stdpp Require Import base list gmap sets.

Set Warnings "-register-all,-clear-no-such-hyp".
Local Open Scope N_scope.

(* ================================================================== *)
(** * Part I: the embedding *)
(* ================================================================== *)

(** ** Strings *)

(** A JavaScript string is a list of UTF-16 code units. *)
Abbreviation jsstring := (list N) (only parsing).

(** An ASCII literal of the source, as code units. *)
Definition lit (s : string) : jsstring :=
  map N_of_ascii (list_ascii_of_string s).

(** The regular-expression class [\s] (ECMA-262 WhiteSpace and
    LineTerminator); [String.prototype.trim] strips the same set. *)
Definition is_ws (c : N) : bool :=
  ((9 <=? c) && (c <=? 13)) || (c =? 32) || (c =? 160) || (c =? 5760)
  || ((8192 <=? c) && (c <=? 8202)) || (c =? 8232) || (c =? 8233)
  || (c =? 8239) || (c =? 8287) || (c =? 12288) || (c =? 65279).

(** The class [[a-z0-9]]. *)
Definition is_lower_alnum (c : N) : bool :=
  ((97 <=? c) && (c <=? 122)) || ((48 <=? c) && (c <=? 57)).

(** Lower-casing of one Basic Latin code unit. *)
Definition lower_ascii (c : N) : N :=
  if (65 <=? c) && (c <=? 90) then c + 32 else c.

(** Equality of one code unit up to ASCII case: how a pattern letter of a
    regular expression with the [i] flag (and without [u]) matches. *)
Definition eq_ci (p c : N) : bool := lower_ascii p =? lower_ascii c.

Fixpoint trimStart (s : jsstring) : jsstring :=
  match s with
  | [] => []
  | c :: s' => if is_ws c then trimStart s' else s
  end.

Fixpoint trimEnd (s : jsstring) : jsstring :=
  match s with
  | [] => []
  | c :: s' =>
      match trimEnd s' with
      | [] => if is_ws c then [] else [c]
      | t => c :: t
      end
  end.

(** [s.trim()] *)
Definition trim (s : jsstring) : jsstring := trimEnd (trimStart s).

(** [s.startsWith(p)], with the code units compared by [eqc]. *)
Fixpoint starts_with (eqc : N -> N -> bool) (p s : jsstring) : bool :=
  match p, s with
  | [], _ => true
  | _ :: _, [] => false
  | a :: p', c :: s' => eqc a c && starts_with eqc p' s'
  end.

(** [s.includes(sub)] *)
Fixpoint includes (s sub : jsstring) : bool :=
  starts_with N.eqb sub s
  || match s with
     | [] => false
     | _ :: s' => includes s' sub
     end.

(** [s.split(sep)] for a separator of one code unit. *)
Fixpoint split_on (sep : N) (s : jsstring) : list jsstring :=
  match s with
  | [] => [[]]
  | c :: s' =>
      if c =? sep then [] :: split_on sep s'
      else match split_on sep s' with
           | w :: ws => (c :: w) :: ws
           | [] => [[c]]
           end
  end.

(** [parts.join(sep)] *)
Fixpoint join (sep : jsstring) (parts : list jsstring) : jsstring :=
  match parts with
  | [] => []
  | [p] => p
  | p :: rest => p ++ sep ++ join sep rest
  end.

(** [s.indexOf(c)] for one code unit: [-1] when absent. *)
Fixpoint indexOf (c : N) (s : jsstring) : Z :=
  match s with
  | [] => (-1)%Z
  | d :: s' =>
      if d =? c then 0%Z
      else let i := indexOf c s' in if (i <? 0)%Z then (-1)%Z else (i + 1)%Z
  end.

(** [s.lastIndexOf(c)] for one code unit: [-1] when absent. *)
Fixpoint lastIndexOf (c : N) (s : jsstring) : Z :=
  match s with
  | [] => (-1)%Z
  | d :: s' =>
      let i := lastIndexOf c s' in
      if (0 <=? i)%Z then (i + 1)%Z else if d =? c then 0%Z else (-1)%Z
  end.

(** [s.slice(from, to)]: a negative index counts from the end, both are
    clamped to the string, and the slice is empty when [to <= from]. *)
Definition slice (from to : Z) (s : jsstring) : jsstring :=
  let len := Z.of_nat (length s) in
  let clamp i := if (i <? 0)%Z then Z.max (len + i) 0 else Z.min i len in
  let a := clamp from in
  let b := clamp to in
  take (Z.to_nat (b - a)) (drop (Z.to_nat a) s).

(** Global replacement [s.replace(/re/g, ...)]: [m] tells whether the
    pattern matches at the head of the rest of the subject and, if so, how
    many code units the match spans and what replaces it.  The scan resumes
    after each match; where nothing matches one code unit is copied.  The
    patterns of the source never match the empty string. *)
Fixpoint replace_from (m : jsstring -> option (nat * jsstring))
    (skip : nat) (s : jsstring) : jsstring :=
  match s with
  | [] => []
  | c :: s' =>
      match skip with
      | S k => replace_from m k s'
      | O =>
          match m s with
          | Some (len, r) => r ++ replace_from m (pred len) s'
          | None => c :: replace_from m O s'
          end
      end
  end.

Definition replace_all (m : jsstring -> option (nat * jsstring))
    (s : jsstring) : jsstring :=
  replace_from m O s.

(** The length of the maximal run of code units satisfying [p] at the head
    of [s]: what a greedy [c*] consumes. *)
Fixpoint run_length (p : N -> bool) (s : jsstring) : nat :=
  match s with
  | c :: s' => if p c then S (run_length p s') else O
  | [] => O
  end.

(** The offset of the first occurrence of [pat] in [s], if any. *)
Fixpoint find_first (eqc : N -> N -> bool) (pat s : jsstring) : option nat :=
  if starts_with eqc pat s then Some O
  else match s with
       | [] => None
       | _ :: s' => option_map S (find_first eqc pat s')
       end.

(** Decimal digits of a natural number, most significant first, written
    with [fuel] division steps. *)
Fixpoint decimal_digits (fuel : nat) (n : N) (acc : jsstring) : jsstring :=
  match fuel with
  | O => acc
  | S fuel' =>
      let acc' := (48 + n mod 10) :: acc in
      if n <? 10 then acc' else decimal_digits fuel' (n / 10) acc'
  end.

(** Number-to-String of a non-negative integer below [10^21]: its decimal
    digits ([N.size_nat n] digits always suffice). *)
Definition decimal (n : N) : jsstring :=
  decimal_digits (S (N.size_nat n)) n [].

(** ** Numbers *)

Abbreviation number := spec_float (only parsing).

Definition fdiv : number -> number -> number := SFdiv 53 1024.

(** The double of an integer (exact below [2^53]). *)
Definition of_Z (z : Z) : number := binary_normalize 53 1024 z 0 false.
Definition of_nat (n : nat) : number := of_Z (Z.of_nat n).

Definition js_zero : number := S754_zero false.
Definition js_one : number := S754_finite false 4503599627370496 (-52).
(** The literal [0.7]: the double nearest to 7/10. *)
Definition js_0_7 : number := S754_finite false 6305039478318694 (-53).

(** [a >= b] on numbers: false when either is NaN. *)
Definition js_ge (a b : number) : bool := SFleb b a.
Definition js_le (a b : number) : bool := SFleb a b.

(** [Math.min(a, b)]: NaN if either is NaN, and [-0] is below [+0]. *)
Definition Math_min (a b : number) : number :=
  match a, b with
  | S754_nan, _ | _, S754_nan => S754_nan
  | S754_zero sa, S754_zero sb => S754_zero (sa || sb)
  | _, _ => if SFltb b a then b else a
  end.

(** [Math.max(a, b)]: NaN if either is NaN, and [+0] is above [-0]. *)
Definition Math_max (a b : number) : number :=
  match a, b with
  | S754_nan, _ | _, S754_nan => S754_nan
  | S754_zero sa, S754_zero sb => S754_zero (sa && sb)
  | _, _ => if SFltb a b then b else a
  end.

(** ** Values *)

(** JavaScript values as [JSON.parse] builds them, with [undefined] for an
    absent property.  An object is the list of its own properties in
    insertion order, with distinct keys. *)
Inductive value : Type :=
| VUndefined
| VNull
| VBool (b : bool)
| VNumber (x : spec_float)
| VString (s : list N)
| VArray (items : list value)
| VObject (props : list (list N * value)).

Abbreviation object := (list (list N * value)) (only parsing).

(** [obj.key]: the own property, or [undefined]. *)
Fixpoint get_prop (key : jsstring) (o : object) : value :=
  match o with
  | [] => VUndefined
  | (k, v) :: o' => if bool_decide (k = key) then v else get_prop key o'
  end.

(** [obj.key = v]: overwrites the property in place, or adds it last. *)
Fixpoint set_prop (key : jsstring) (v : value) (o : object) : object :=
  match o with
  | [] => [(key, v)]
  | (k, w) :: o' =>
      if bool_decide (k = key) then (k, v) :: o' else (k, w) :: set_prop key v o'
  end.

(** ToBoolean *)
Definition truthy (v : value) : bool :=
  match v with
  | VUndefined | VNull => false
  | VBool b => b
  | VNumber (S754_zero _) | VNumber S754_nan => false
  | VNumber _ => true
  | VString s => negb (bool_decide (s = []))
  | VArray _ | VObject _ => true
  end.

(** [a || b] *)
Definition js_or (a b : value) : value := if truthy a then a else b.

(** [v === 'literal'] *)
Definition is_string (s : jsstring) (v : value) : bool :=
  match v with
  | VString t => bool_decide (t = s)
  | _ => false
  end.

(** [Number.isFinite(v)]: no coercion, so false for every non-number. *)
Definition Number_isFinite (v : value) : bool :=
  match v with
  | VNumber (S754_zero _) | VNumber (S754_finite _ _ _) => true
  | _ => false
  end.

(** ** The engine's built-ins *)

(** Unicode case conversion. *)
Class CaseConversion := {
  (** [String.prototype.toLowerCase], the Unicode default case conversion *)
  toLowerCase : list N -> list N;
  (** on Basic Latin text it lowers each letter [A-Z] and keeps the rest *)
  toLowerCase_basic_latin :
    forall s, Forall (fun c => c < 128) s -> toLowerCase s = map lower_ascii s
}.

(** Number-to-String conversion. *)
Class NumberFormat := {
  (** Number::toString of ECMA-262 (radix 10) *)
  Number_toString : spec_float -> list N;
  Number_toString_zero : forall s, Number_toString (S754_zero s) = lit "0";
  Number_toString_nan : Number_toString S754_nan = lit "NaN"
}.

(** The JSON parser. *)
Class JsonParser := {
  (** [JSON.parse]; [None] when it throws a SyntaxError *)
  JSON_parse : list N -> option value
}.

(** ** Completions *)

(** The outcome of running a piece of code: a value, or a thrown [Error]
    with its message. *)
Inductive completion (A : Type) : Type :=
| Normal (a : A)
| Throw (message : list N).
Arguments Normal {A} a.
Arguments Throw {A} message.

(** [try { c } catch { handler }] *)
Definition try_catch {A : Type} (c : completion A)
    (handler : jsstring -> completion A) : completion A :=
  match c with
  | Normal a => Normal a
  | Throw e => handler e
  end.

(** ** Helpers for anti-repeat (server.js, lines 12-31) *)

Definition STOP : gset (list N) :=
  list_to_set (split_on 32 (lit
    "the a an is are was were do does did has have had of to in on for with without about from at by as be been being character person human someone somebody male female man woman guy girl boy child adult old young age big small same similar repeat repeated repeating any")).

(** [.replace(/[^a-z0-9\s]/g, ' ')] *)
Definition blank_other (c : N) : N :=
  if is_lower_alnum c || is_ws c then c else 32.

(** [.replace(/\s+/g, ' ')]; [in_run] tells that the previous code unit
    belonged to the whitespace run being replaced. *)
Fixpoint squeeze (in_run : bool) (s : jsstring) : jsstring :=
  match s with
  | [] => []
  | c :: s' =>
      if is_ws c then (if in_run then squeeze true s' else 32 :: squeeze true s')
      else c :: squeeze false s'
  end.

Record HistoryEntry := { q : list N; a : list N }.

(** [new Set(a)], [for (const x of A) if (B.has(x)) inter++], and
    [union ? inter / union : 0]. *)
Definition jaccard (a b : list jsstring) : number :=
  let A : gset (list N) := list_to_set a in
  let B : gset (list N) := list_to_set b in
  let inter := length (filter (fun x => x ∈ B) (elements A)) in
  let union := (size A + size B - inter)%nat in
  if bool_decide (union = O) then js_zero else fdiv (of_nat inter) (of_nat union).

Section AntiRepeat.
Context {C : CaseConversion}.

Definition norm (s : jsstring) : jsstring :=
  trim (squeeze false (map blank_other (toLowerCase s))).

Definition tokens (s : jsstring) : list jsstring :=
  filter (fun w => w ≠ [] ∧ w ∉ STOP) (split_on 32 (norm s)).

(** The body of the [for (const h of history)] loop: [true] when it
    returns true, [false] when it falls through to the next entry. *)
Definition repeat_of (question : jsstring) (tq : list jsstring)
    (h : HistoryEntry) : bool :=
  let t := tokens (q h) in
  let sim := jaccard tq t in
  if js_ge sim js_0_7 then true
  else
    let a := norm question in
    let b := norm (q h) in
    includes a b || includes b a.

Fixpoint isRepeat_loop (question : jsstring) (tq : list jsstring)
    (history : list HistoryEntry) : bool :=
  match history with
  | [] => false
  | h :: rest =>
      if repeat_of question tq h then true
      else isRepeat_loop question tq rest
  end.

Definition isRepeat (question : jsstring) (history : list HistoryEntry) : bool :=
  isRepeat_loop question (tokens question) history.
End AntiRepeat.

(** ** Prompt builders (server.js, lines 52-76) *)

Record PromptContext := {
  domain : list N;
  history : list HistoryEntry;
  forceFinal : bool;
  hint : list N
}.

(** [a || b] on strings: the empty string is the only falsy one. *)
Definition str_or (a b : jsstring) : jsstring :=
  match a with
  | [] => b
  | _ => a
  end.

Section PromptBuilders.
Context {C : CaseConversion}.

(** The callback of [history.map]: [`Q${i + 1}: ${q} → ${a}`] with [q]
    and [a] the lower-cased texts of the entry. *)
Definition fact_line (i : nat) (x : HistoryEntry) : jsstring :=
  let q := toLowerCase (q x) in
  let a := toLowerCase (a x) in
  lit "Q" ++ decimal (N.of_nat (i + 1)) ++ lit ": " ++ q
    ++ [32; 8594; 32] ++ a.

Definition structuredFacts (history : list HistoryEntry) : jsstring :=
  str_or (join [10] (imap fact_line history)) (lit "(no previous questions)").

Definition buildUser (ctx : PromptContext) : jsstring :=
  join [10]
    [ lit "We are playing 20 Questions. Domain: " ++ domain ctx ++ lit ".";
      lit "Here are all facts discovered so far:";
      structuredFacts (history ctx);
      [];
      lit "Based on these facts, reason logically to choose the next most informative question.";
      lit "Your question should reduce uncertainty the most and move closer to a confident guess.";
      lit "Focus on attributes not yet covered (e.g. nationality, occupation, historical era, public role, media type, field of work, notable achievements).";
      (if forceFinal ctx
       then lit "forceFinal=true " ++ [8594] ++ lit " make your best final guess."
       else lit "forceFinal=false " ++ [8594] ++ lit " ask the next question logically.");
      (match hint ctx with
       | [] => lit "(no hint)"
       | _ => lit "Player hint: " ++ hint ctx
       end);
      lit "Return ONLY strict JSON." ].
End PromptBuilders.

(** ** Response interpreter (server.js, lines 78-108) *)

(** [/<think>[\s\S]*?<\/think>/gi]: an opening marker and the first closing
    marker after it, with everything in between. *)
Definition match_think (s : jsstring) : option (nat * jsstring) :=
  if starts_with eq_ci (lit "<think>") s then
    match find_first eq_ci (lit "</think>") (drop 7 s) with
    | Some k => Some ((7 + k + 8)%nat, [])
    | None => None
    end
  else None.

(** [/```(?:json)?/gi] *)
Definition match_fence_tag (s : jsstring) : option (nat * jsstring) :=
  if starts_with N.eqb (lit "```") s then
    Some (if starts_with eq_ci (lit "json") (drop 3 s) then 7%nat else 3%nat, [])
  else None.

(** [/```/g] *)
Definition match_fence (s : jsstring) : option (nat * jsstring) :=
  if starts_with N.eqb (lit "```") s then Some (3%nat, []) else None.

(** [/,\s*([}\]])/g] replaced by ['$1']: a comma, whitespace, and a
    closing brace or bracket, which alone is kept. *)
Definition match_trailing_comma (s : jsstring) : option (nat * jsstring) :=
  match s with
  | 44 :: r =>
      let k := run_length is_ws r in
      match drop k r with
      | c :: _ =>
          if (c =? 125) || (c =? 93) then Some ((1 + k + 1)%nat, [c]) else None
      | [] => None
      end
  | _ => None
  end.

(** The pattern of line 99 with the [g] flag: a colon, [\s*], a single
    quote, a greedy run of code units other than the single quote (group
    1), and a single quote; the replacement is a colon, one space, and
    group 1 between straight double quotes. *)
Definition match_single_quoted (s : jsstring) : option (nat * jsstring) :=
  match s with
  | 58 :: r =>
      let k := run_length is_ws r in
      match drop k r with
      | 39 :: r2 =>
          let n := run_length (fun c => negb (c =? 39)) r2 in
          match drop n r2 with
          | 39 :: _ =>
              Some ((1 + k + 1 + n + 1)%nat, [58; 32; 34] ++ take n r2 ++ [34])
          | _ => None
          end
      | _ => None
      end
  | _ => None
  end.

(** The alternation of the two curly double quotes (U+201C, U+201D), with
    the [g] flag, replaced by the straight double quote (U+0022). *)
Definition match_smart_quote (s : jsstring) : option (nat * jsstring) :=
  match s with
  | c :: _ => if (c =? 8220) || (c =? 8221) then Some (1%nat, [34]) else None
  | [] => None
  end.

(** The three replacements that strip reasoning blocks and code fences. *)
Definition strip_noise (s : jsstring) : jsstring :=
  replace_all match_fence
    (replace_all match_fence_tag (replace_all match_think s)).

(** The clean-up applied to the candidate after a failed parse. *)
Definition cleanup (s : jsstring) : jsstring :=
  replace_all match_smart_quote
    (replace_all match_single_quoted (replace_all match_trailing_comma s)).

Section ResponseInterpreter.
Context {F : NumberFormat} {J : JsonParser}.

(** [String(v)] *)
Fixpoint ToString (v : value) : jsstring :=
  match v with
  | VUndefined => lit "undefined"
  | VNull => lit "null"
  | VBool true => lit "true"
  | VBool false => lit "false"
  | VNumber x => Number_toString x
  | VString s => s
  | VArray items =>
      join (lit ",")
        (List.map (fun i => match i with
                            | VUndefined | VNull => []
                            | _ => ToString i
                            end) items)
  | VObject _ => lit "[object Object]"
  end.

(** [JSON.parse(s)] as a completion. *)
Definition parse (s : jsstring) : completion value :=
  match JSON_parse s with
  | Some v => Normal v
  | None => Throw (lit "SyntaxError")
  end.

Definition extractJson (text : value) : completion value :=
  if negb (truthy text) then Normal VNull
  else
    let text := trim (strip_noise (ToString text)) in
    let start := indexOf 123 text in
    let end_ := lastIndexOf 125 text in
    if (start =? -1)%Z || (end_ =? -1)%Z then Normal VNull
    else
      let jsonCandidate := slice start (end_ + 1) text in
      try_catch (parse jsonCandidate) (fun _ =>
        let cleaned := cleanup jsonCandidate in
        try_catch (parse cleaned) (fun _ => Normal VNull)).
End ResponseInterpreter.

(** ** The reference definition of the response interpreter

    The second definition follows the specification's steps and shares no
    scanner with the first: blocks and markers are recognized on prefixes
    of the text ([take], [drop], equality up to letter case), each
    occurrence is rewritten by cutting it off the text, positions are
    optional naturals, the JSON-like region is cut by position, and a
    failed parse is an absent result. *)

(** The position of the first code unit equal to [c]. *)
Definition first_position (c : N) (s : jsstring) : option nat :=
  fst <$> list_find (fun d => d = c) s.

(** The position of the last code unit equal to [c]. *)
Definition last_position (c : N) (s : jsstring) : option nat :=
  (fun i => (length s - 1 - i)%nat) <$> first_position c (reverse s).

(** The text from position [i] to position [j], both included. *)
Definition region (i j : nat) (s : jsstring) : jsstring :=
  take (j + 1 - i) (drop i s).

(** The longest prefix of [s] whose code units satisfy [p], and what
    follows it. *)
Fixpoint span (p : N -> bool) (s : jsstring) : list N * list N :=
  match s with
  | c :: s' =>
      if p c then (c :: fst (span p s'), snd (span p s')) else ([], s)
  | [] => ([], [])
  end.

(** [s] begins with [marker], letter case apart. *)
Definition begins_with_ci (marker s : jsstring) : bool :=
  bool_decide (map lower_ascii (take (length marker) s) = map lower_ascii marker).

(** The least offset at which [marker] occurs in [s], letter case apart. *)
Fixpoint offset_of_ci (marker s : jsstring) : option nat :=
  if begins_with_ci marker s then Some O
  else match s with
       | [] => None
       | _ :: s' => S <$> offset_of_ci marker s'
       end.

(** Rewriting every occurrence, leftmost first.  [rule] tells whether the
    text begins with an occurrence and, if so, its length and what it
    becomes; the occurrence is cut off the text and the rewriting goes on
    with what follows it.  Where the text begins with no occurrence its
    first code unit is kept.  An occurrence is never empty, so [fuel] steps
    rewrite a text of at most [fuel] code units. *)
Fixpoint rewrite_occurrences (rule : jsstring -> option (nat * jsstring))
    (fuel : nat) (s : jsstring) : jsstring :=
  match fuel with
  | O => []
  | S fuel' =>
      match s with
      | [] => []
      | c :: rest =>
          match rule s with
          | Some (n, r) => r ++ rewrite_occurrences rule fuel' (drop n s)
          | None => c :: rewrite_occurrences rule fuel' rest
          end
      end
  end.

Definition rewrite_all (rule : jsstring -> option (nat * jsstring))
    (s : jsstring) : jsstring :=
  rewrite_occurrences rule (length s) s.

(** A chain-of-thought block: the opening marker, and everything up to and
    including the nearest closing marker; it becomes nothing. *)
Definition think_block (s : jsstring) : option (nat * jsstring) :=
  if begins_with_ci (lit "<think>") s then
    (fun k => ((7 + k + 8)%nat, [])) <$> offset_of_ci (lit "</think>") (drop 7 s)
  else None.

(** A code-fence marker: three backquotes, with the language tag [json]
    when it follows at once; it becomes nothing. *)
Definition fence_marker (s : jsstring) : option (nat * jsstring) :=
  if bool_decide (take 3 s = [96; 96; 96]) then
    Some (if begins_with_ci (lit "json") (drop 3 s) then 7%nat else 3%nat, [])
  else None.

(** A trailing comma: a comma, whitespace, and a closing brace or bracket;
    the brace or bracket is all that is left of it. *)
Definition trailing_comma (s : jsstring) : option (nat * jsstring) :=
  match s with
  | c :: r =>
      if bool_decide (c = 44) then
        match snd (span is_ws r) with
        | b :: _ =>
            if bool_decide (b = 125 \/ b = 93)
            then Some ((length (fst (span is_ws r)) + 2)%nat, [b])
            else None
        | [] => None
        end
      else None
  | [] => None
  end.

(** A single-quoted value: a colon, whitespace, and a text between two
    single quotes that has none inside; it becomes a colon, a space, and
    the text between double quotes. *)
Definition single_quoted_value (s : jsstring) : option (nat * jsstring) :=
  match s with
  | c :: r =>
      if bool_decide (c = 58) then
        match snd (span is_ws r) with
        | o :: r2 =>
            if bool_decide (o = 39) then
              let inner := fst (span (fun d => negb (d =? 39)) r2) in
              match snd (span (fun d => negb (d =? 39)) r2) with
              | e :: _ =>
                  if bool_decide (e = 39)
                  then Some ((length (fst (span is_ws r)) + length inner + 3)%nat,
                             [58; 32; 34] ++ inner ++ [34])
                  else None
              | [] => None
              end
            else None
        | [] => None
        end
      else None
  | [] => None
  end.

(** Step 2 of the specification. *)
Definition strip_think_blocks (s : jsstring) : jsstring :=
  rewrite_all think_block s.

Definition strip_fence_markers (s : jsstring) : jsstring :=
  rewrite_all fence_marker s.

(** Step 3 of the specification. *)
Definition trim_whitespace (s : jsstring) : jsstring :=
  reverse (snd (span is_ws (reverse (snd (span is_ws s))))).

(** Step 6 of the specification: the repair pass. *)
Definition drop_trailing_commas (s : jsstring) : jsstring :=
  rewrite_all trailing_comma s.

Definition double_quote_values (s : jsstring) : jsstring :=
  rewrite_all single_quoted_value s.

Definition straighten_quotes (s : jsstring) : jsstring :=
  map (fun c => if bool_decide (c = 8220 \/ c = 8221) then 34 else c) s.

Definition repair (s : jsstring) : jsstring :=
  straighten_quotes (double_quote_values (drop_trailing_commas s)).

Section Reference.
Context {F : NumberFormat} {J : JsonParser}.


End Reference.

(** ** Turn orchestrator (server.js, lines 34-50 and 168-205) *)

Definition buildSystem (domain : jsstring) : jsstring :=
  join [32]
    [ lit "You are an expert reasoning agent playing a 20 Questions (Akinator-style) game.";
      lit "Your goal is to identify the hidden target by asking strategic yes/no questions.";
      lit "Domain: " ++ domain ++ lit ". Ask ONE question per turn.";
      lit "Use deductive reasoning based on all previous questions and answers. Each new question must narrow down the space of possibilities.";
      lit "Ask questions that explore new dimensions (occupation, nationality, time period, traits, media type, etc.).";
      lit "Avoid repeating or rephrasing previous questions.";
      lit "When you have enough information (confidence " ++ [8805] ++ lit " 0.75), propose a guess.";
      lit "If forced final, give your best guess.";
      lit "Output ONLY strict JSON (no prose):";
      lit "{" ++ [34] ++ lit "type" ++ [34] ++ lit ":" ++ [34] ++ lit "ask" ++ [34]
        ++ lit "," ++ [34] ++ lit "question" ++ [34] ++ lit ":" ++ [34]
        ++ lit "<short yes/no question>" ++ [34] ++ lit "} OR";
      lit "{" ++ [34] ++ lit "type" ++ [34] ++ lit ":" ++ [34] ++ lit "guess" ++ [34]
        ++ lit "," ++ [34] ++ lit "guess" ++ [34] ++ lit ":" ++ [34]
        ++ lit "<one candidate>" ++ [34] ++ lit "," ++ [34] ++ lit "confidence"
        ++ [34] ++ lit ":0.0} OR";
      lit "{" ++ [34] ++ lit "type" ++ [34] ++ lit ":" ++ [34] ++ lit "final" ++ [34]
        ++ lit "," ++ [34] ++ lit "guess" ++ [34] ++ lit ":" ++ [34]
        ++ lit "<best candidate>" ++ [34] ++ lit "," ++ [34] ++ lit "confidence"
        ++ [34] ++ lit ":0.0}";
      lit "Never include explanations, markdown, or comments." ].

Record Message := { role : list N; content : list N }.

(** The system message pushed after a repeated question (line 187). *)
Definition correction (question : jsstring) : Message :=
  {| role := lit "system";
     content :=
       lit "You repeated: " ++ [34] ++ question ++ [34]
       ++ lit ". Ask a different, non-redundant question focusing on a new attribute. Absolutely avoid re-asking about the same topic." |}.

(** [Number(v)] of a value that is a number.  The source applies it under
    [Number.isFinite(v)] only, so the coercions of the other types are
    never reached. *)
Definition Number_of (v : value) : number :=
  match v with
  | VNumber x => x
  | _ => S754_nan
  end.

(** Line 192: [Number.isFinite(c) ? Math.max(0, Math.min(1, Number(c))) : 0] *)
Definition clamp_confidence (c : value) : number :=
  if Number_isFinite c then Math_max js_zero (Math_min js_one (Number_of c))
  else js_zero.

(** The variables of the retry loop: [attempts], [messages] and [obj]
    ([None] while it is still [undefined]). *)
Record loop_state := {
  attempts : nat;
  messages : list Message;
  obj : option (list (list N * value))
}.

(** How one iteration of the [while] body ends. *)
Inductive control :=
| Next (s : loop_state)       (* [continue]: back to the loop test *)
| Break (s : loop_state)      (* [break] *)
| Raise (message : list N).   (* [throw new Error(message)] *)

(** The JSON body of the request; an absent field takes its default. *)
Record StepBody := {
  body_domain : option (list N);
  body_history : option (list HistoryEntry);
  body_forceFinal : option bool;
  body_hint : option (list N)
}.

(** What the handler sends: [res.status(n).json(body)]. *)
Inductive response := Response (status : nat) (body : value).

Definition error_body (message : jsstring) : value :=
  VObject [(lit "error", VString message)].

Section Orchestrator.
Context {C : CaseConversion} {F : NumberFormat}.

(** The inference client; its answer depends on the remote model, so it
    is a function of the number of calls made before and of the messages
    sent.  It returns the parsed object or throws. *)
Variable callFireworks : nat -> list Message -> completion (list (list N * value)).

(** Lines 180-197: one iteration of the loop body. *)
Definition attempt (history : list HistoryEntry) (s : loop_state) : control :=
  let attempts' := S (attempts s) in
  match callFireworks (attempts s) (messages s) with
  | Throw e => Raise e
  | Normal obj =>
      if is_string (lit "ask") (get_prop (lit "type") obj) then
        let obj :=
          set_prop (lit "question")
            (VString (slice 0 200
               (ToString (js_or (get_prop (lit "question") obj) (VString [])))))
            obj in
        if negb (truthy (get_prop (lit "question") obj)) then
          Raise (lit "Missing question")
        else if isRepeat (ToString (get_prop (lit "question") obj)) history then
          Next {| attempts := attempts';
                  messages := messages s
                    ++ [correction (ToString (get_prop (lit "question") obj))];
                  obj := Some obj |}
        else
          Break {| attempts := attempts'; messages := messages s; obj := Some obj |}
      else if is_string (lit "guess") (get_prop (lit "type") obj)
              || is_string (lit "final") (get_prop (lit "type") obj) then
        let obj :=
          set_prop (lit "guess")
            (VString (slice 0 120
               (ToString (js_or (get_prop (lit "guess") obj) (VString [])))))
            obj in
        let obj :=
          set_prop (lit "confidence")
            (VNumber (clamp_confidence (get_prop (lit "confidence") obj))) obj in
        if negb (truthy (get_prop (lit "guess") obj)) then
          Raise (lit "Missing guess")
        else
          Break {| attempts := attempts'; messages := messages s; obj := Some obj |}
      else Raise (lit "Invalid type")
  end.

(** Lines 179-198: [while (attempts < 3) { ... }].  [fuel] bounds the
    number of iterations; [None] means that it ran out. *)
Fixpoint retry_loop (fuel : nat) (history : list HistoryEntry)
    (s : loop_state) : option (completion loop_state) :=
  if (attempts s <? 3)%nat then
    match fuel with
    | O => None
    | S fuel' =>
        match attempt history s with
        | Next s' => retry_loop fuel' history s'
        | Break s' => Some (Normal s')
        | Raise e => Some (Throw e)
        end
    end
  else Some (Normal s).

(** Lines 173-176. *)
Definition initial_state (ctx : PromptContext) : loop_state :=
  {| attempts := O;
     messages :=
       [ {| role := lit "system"; content := buildSystem (domain ctx) |};
         {| role := lit "user"; content := buildUser ctx |} ];
     obj := None |}.

(** Lines 170-176: the defaults of the destructured request body. *)
Definition context_of (body : StepBody) : PromptContext :=
  {| domain := default (lit "character") (body_domain body);
     history := default [] (body_history body);
     forceFinal := default false (body_forceFinal body);
     hint := default [] (body_hint body) |}.

(** The handler of [POST /api/step]; [api_key] tells whether
    [process.env.FIREWORKS_API_KEY] is set. *)
Definition api_step (api_key : bool) (body : StepBody) : option response :=
  let ctx := context_of body in
  if negb api_key then
    Some (Response 500 (error_body (lit "Server missing FIREWORKS_API_KEY")))
  else
    match retry_loop 3 (history ctx) (initial_state ctx) with
    | Some (Normal s) =>
        Some (Response 200
                (match obj s with
                 | Some o => VObject o
                 | None => VUndefined
                 end))
    | Some (Throw e) =>
        Some (Response 500 (error_body (str_or e (lit "Server error"))))
    | None => None
    end.
End Orchestrator.

(** ** Engine instances for closed computations *)

(** Case conversion of Basic Latin text, letter by letter. *)
Definition basic_latin : CaseConversion :=
  {| toLowerCase := map lower_ascii;
     toLowerCase_basic_latin := fun s _ => eq_refl |}.

(** The digits [d] without their trailing zeros. *)
Definition strip_trailing_zeros (d : jsstring) : jsstring :=
  reverse (drop (run_length (N.eqb 48) (reverse d)) (reverse d)).

(** The exact decimal expansion of a double.  Number::toString prints the
    shortest expansion that reads back as the same double; the two agree on
    the integers below [2^53] and on the binary fractions with few digits
    (0.5, 1.5, 0.25, ...), and both print [0] and [NaN] as the class asks. *)
Definition exact_decimal (x : number) : jsstring :=
  match x with
  | S754_zero _ => lit "0"
  | S754_nan => lit "NaN"
  | S754_infinity s => (if s then lit "-" else []) ++ lit "Infinity"
  | S754_finite s m e =>
      (if s then lit "-" else [])
      ++ match e with
         | Zneg k =>
             let d := 2 ^ Npos k in
             let ip := Npos m / d in
             let fp := Npos m mod d in
             decimal ip
             ++ (if fp =? 0 then []
                 else 46 :: strip_trailing_zeros
                        (replicate (Pos.to_nat k - length (decimal (fp * 5 ^ Npos k))) 48
                         ++ decimal (fp * 5 ^ Npos k)))
         | _ => decimal (Npos m * 2 ^ Z.to_N e)
         end
  end.

Definition exact_format : NumberFormat :=
  {| Number_toString := exact_decimal;
     Number_toString_zero := fun _ => eq_refl;
     Number_toString_nan := eq_refl |}.

(** ** Predicates of the statements *)

(** The code units of a normalized string: [a-z], [0-9] and the space. *)
Definition plain (c : N) : Prop := is_lower_alnum c = true \/ c = 32.

(** No two whitespace code units in a row. *)
Fixpoint single_spaced (s : jsstring) : bool :=
  match s with
  | c :: s' =>
      match s' with
      | d :: _ => negb (is_ws c && is_ws d) && single_spaced s'
      | [] => true
      end
  | [] => true
  end.

(** The shape of a normalized string: words over [a-z0-9] separated by
    single spaces, with no space at either end. *)
Definition normalized (s : jsstring) : Prop :=
  Forall plain s /\ single_spaced s = true /\ trimStart s = s /\ trimEnd s = s.

(** [sub] occurs in [s] as a contiguous substring. *)
Definition substring (sub s : jsstring) : Prop :=
  exists pre post, s = pre ++ sub ++ post.

(** Jaccard similarity of two token sets: [|A ∩ B| / |A ∪ B|], and [0]
    when the union is empty. *)
Definition similarity (A B : gset (list N)) : number :=
  if bool_decide (size (A ∪ B) = O) then js_zero
  else fdiv (of_nat (size (A ∩ B))) (of_nat (size (A ∪ B))).

Section Statements.
Context {C : CaseConversion}.

(** The spec's normalization: lower-case, replace every code unit outside
    [[a-z0-9 ]] by a space, collapse whitespace runs, trim. *)
Definition normalize (s : jsstring) : jsstring :=
  trim (squeeze false
          (map (fun c => if is_lower_alnum c || (c =? 32) then c else 32)
               (toLowerCase s))).

(** The token set of a question: the words of the normalized question,
    split on spaces, that are not stop-words. *)
Definition token_set (s : jsstring) : gset (list N) :=
  list_to_set (tokens s).

(** A history entry that makes a candidate a duplicate. *)
Definition duplicates (question : jsstring) (h : HistoryEntry) : Prop :=
  js_ge (similarity (token_set question) (token_set (q h))) js_0_7 = true
  \/ substring (norm (q h)) (norm question)
  \/ substring (norm question) (norm (q h)).
End Statements.

(** A number of the closed interval from 0 to 1. *)
Definition in_unit_interval (c : number) : Prop :=
  js_le js_zero c = true /\ js_le c js_one = true.

(** The first [n] code units of the text of a field, an absent or falsy
    field counting as the empty text. *)
Definition truncated {F : NumberFormat} (n : nat) (field : value) : jsstring :=
  take n (ToString (js_or field (VString []))).

(** The three shapes of a game action, as far as the orchestrator
    establishes them: the fields of the action's own shape. *)
Definition valid_action (o : object) : Prop :=
  (get_prop (lit "type") o = VString (lit "ask")
   /\ exists question,
        get_prop (lit "question") o = VString question
        /\ question <> [] /\ (length question <= 200)%nat)
  \/ ((get_prop (lit "type") o = VString (lit "guess")
       \/ get_prop (lit "type") o = VString (lit "final"))
      /\ exists guess confidence,
           get_prop (lit "guess") o = VString guess
           /\ guess <> [] /\ (length guess <= 120)%nat
           /\ get_prop (lit "confidence") o = VNumber confidence
           /\ in_unit_interval confidence).


(** The doubles written [1.5], [-0.2] and [0.8] in the specification. *)
Definition js_1_5 : number := S754_finite false 6755399441055744 (-52).
Definition js_minus_0_2 : number := S754_finite true 7205759403792794 (-55).

(** The state the loop is left in after an attempt that kept [o]. *)
Definition after_attempt (s : loop_state) (extra : list Message)
    (o : object) : loop_state :=
  {| attempts := S (attempts s); messages := messages s ++ extra; obj := Some o |}.

(** An action with its question replaced by the truncated text. *)
Definition with_question {F : NumberFormat} (o : object) : object :=
  set_prop (lit "question")
    (VString (truncated 200 (get_prop (lit "question") o))) o.

(** An action with its guess truncated and its confidence clamped. *)
Definition with_guess {F : NumberFormat} (o : object) : object :=
  set_prop (lit "confidence")
    (VNumber (clamp_confidence (get_prop (lit "confidence") o)))
    (set_prop (lit "guess")
       (VString (truncated 120 (get_prop (lit "guess") o))) o).

Definition is_ask (o : object) : Prop :=
  get_prop (lit "type") o = VString (lit "ask").

Definition is_guess_or_final (o : object) : Prop :=
  get_prop (lit "type") o = VString (lit "guess")
  \/ get_prop (lit "type") o = VString (lit "final").

(** The two shapes of action objects the model is asked for, as parsed
    JSON. *)
Definition ask_action (question : value) : object :=
  [ (lit "type", VString (lit "ask")); (lit "question", question) ].

Definition guess_action (type : jsstring) (guess confidence : value) : object :=
  [ (lit "type", VString type); (lit "guess", guess);
    (lit "confidence", confidence) ].

(** An inference client that answers with the actions of a script, one per
    call, and fails once the script is over. *)
Definition scripted (script : list (list (list N * value)))
    (call : nat) (_ : list Message) : completion (list (list N * value)) :=
  match script !! call with
  | Some o => Normal o
  | None => Throw (lit "Fireworks error")
  end.

(** A request body with every field absent. *)
Definition empty_body : StepBody :=
  {| body_domain := None; body_history := None;
     body_forceFinal := None; body_hint := None |}.

(** The question of an ask action as the orchestrator stores it, and the
    guess of a guess or final action. *)
Definition asked {F : NumberFormat} (o : object) : jsstring :=
  truncated 200 (get_prop (lit "question") o).

Definition guessed {F : NumberFormat} (o : object) : jsstring :=
  truncated 120 (get_prop (lit "guess") o).

(** A parser given by a finite table of texts and their values: it parses
    the texts of the table and rejects every other text.  It stands for
    [JSON.parse] in closed computations on chosen texts. *)
Definition table_parser (table : list (list N * value)) : JsonParser :=
  {| JSON_parse := fun s =>
       match list_find (fun entry => fst entry = s) table with
       | Some (_, entry) => Some (snd entry)
       | None => None
       end |}.

(** ** Inference client (server.js, lines 111-165) *)

(** One request to the completion endpoint: the model and the messages
    (the sampling parameters are constants of the source). *)
Record Request := { req_model : list N; req_messages : list Message }.

(** What [await fetch(...)] resolves to: the flag [resp.ok], and the value
    of [resp.json()], [None] when that promise rejects. *)
Record HttpResponse := { resp_ok : bool; resp_json : option value }.

Definition primary_model : jsstring :=
  lit "accounts/sentientfoundation/models/dobby-unhinged-llama-3-3-70b-new".

Definition repair_model : jsstring :=
  lit "accounts/sentientfoundation-serverless/models/dobby-mini-unhinged-plus-llama-3-1-8b".

(** [v.key] and [v?.key], for a key that no built-in prototype defines
    ([error], [choices], [message], [content], [type]): an own property of
    an object, [undefined] on anything else. *)
Definition member (key : jsstring) (v : value) : value :=
  match v with
  | VObject o => get_prop key o
  | _ => VUndefined
  end.

(** [v?.[0]]: the first element of an array, the first code unit of a
    string, the property [0] of an object. *)
Definition first_item (v : value) : value :=
  match v with
  | VArray (x :: _) => x
  | VString (c :: _) => VString [c]
  | VObject o => get_prop (lit "0") o
  | _ => VUndefined
  end.

(** [data?.choices?.[0]?.message?.content || ""] (lines 134 and 158) *)
Definition completion_text (data : value) : value :=
  js_or (member (lit "content")
           (member (lit "message") (first_item (member (lit "choices") data))))
        (VString []).

(** [!obj || !obj.type] (lines 137 and 162) *)
Definition unusable (v : value) : bool :=
  negb (truthy v) || negb (truthy (member (lit "type") v)).

Section InferenceClient.
Context {F : NumberFormat} {J : JsonParser}.

(** The network: the answer to a request may differ from one call of the
    client to the next, so it depends on the number of the call too; a
    rejected [fetch] is a throw. *)
Variable fetch : nat -> Request -> completion HttpResponse.

(** The messages of the repair request (lines 151-154). *)
Definition repair_messages (raw : value) : list Message :=
  [ {| role := lit "system";
       content := lit "Return only valid JSON, no text outside it." |};
    {| role := lit "user";
       content := lit "Reformat this text to valid JSON only: " ++ ToString raw |} ].

(** [callFireworks(messages)], with the requests it sent. *)
Definition callFireworks_run (call : nat) (messages : list Message)
    : list Request * completion value :=
  let first := {| req_model := primary_model; req_messages := messages |} in
  match fetch call first with
  | Throw e => ([first], Throw e)
  | Normal resp =>
      let data := default (VObject []) (resp_json resp) in
      if negb (resp_ok resp) then
        ([first],
         Throw (ToString (js_or (member (lit "error") data)
                                (VString (lit "Fireworks error")))))
      else
        let raw := completion_text data in
        match extractJson raw with
        | Throw e => ([first], Throw e)
        | Normal obj =>
            if unusable obj then
              let second :=
                {| req_model := repair_model;
                   req_messages := repair_messages raw |} in
              match fetch call second with
              | Throw e => ([first; second], Throw e)
              | Normal retry =>
                  let retryData := default (VObject []) (resp_json retry) in
                  let retryRaw := completion_text retryData in
                  match extractJson retryRaw with
                  | Throw e => ([first; second], Throw e)
                  | Normal obj =>
                      if unusable obj
                      then ([first; second], Throw (lit "Parse error"))
                      else ([first; second], Normal obj)
                  end
              end
            else ([first], Normal obj)
        end
  end.

(** The client as the orchestrator uses it.  It returns objects only (see
    [callFireworks_returns_typed_object]); the last case is never taken. *)
Definition callFireworks (call : nat) (messages : list Message)
    : completion (list (list N * value)) :=
  match snd (callFireworks_run call messages) with
  | Throw e => Throw e
  | Normal (VObject o) => Normal o
  | Normal _ => Throw (lit "Parse error")
  end.
End InferenceClient.

(** A network that answers every request with status 200 and the given
    completion text. *)
Definition answering (text : jsstring) (_ : nat) (_ : Request)
    : completion HttpResponse :=
  Normal
    {| resp_ok := true;
       resp_json :=
         Some (VObject
           [ (lit "choices",
              VArray [ VObject [ (lit "message",
                                  VObject [ (lit "content", VString text) ]) ] ]) ]) |}.


(** The JSON text of the ask action [Is it real?], and a parser that knows
    this text. *)
Definition sample_ask_text : jsstring :=
  lit "{" ++ [34] ++ lit "type" ++ [34] ++ lit ":" ++ [34] ++ lit "ask" ++ [34]
  ++ lit "," ++ [34] ++ lit "question" ++ [34] ++ lit ":" ++ [34]
  ++ lit "Is it real?" ++ [34] ++ lit "}".

Definition sample_parser : JsonParser :=
  table_parser
    [ (sample_ask_text, VObject (ask_action (VString (lit "Is it real?")))) ].


(* ================================================================== *)
(** * Part II: properties *)
(* ================================================================== *)

(** ** Character classes *)

Ltac bool_prop :=
  repeat match goal with
  | H : _ && _ = true |- _ => apply andb_true_iff in H; destruct H
  | H : _ || _ = false |- _ => apply orb_false_iff in H; destruct H
  | H : negb _ = true |- _ => apply negb_true_iff in H
  | H : negb _ = false |- _ => apply negb_false_iff in H
  | H : (_ <=? _) = true |- _ => apply N.leb_le in H
  | H : (_ <=? _) = false |- _ => apply N.leb_gt in H
  | H : (_ =? _) = true |- _ => apply N.eqb_eq in H
  | H : (_ =? _) = false |- _ => apply N.eqb_neq in H
  end.

Lemma is_ws_true (c : N) :
  is_ws c = true <->
  (9 <= c <= 13 \/ c = 32 \/ c = 160 \/ c = 5760 \/ 8192 <= c <= 8202
   \/ c = 8232 \/ c = 8233 \/ c = 8239 \/ c = 8287 \/ c = 12288 \/ c = 65279).
Proof.
  unfold is_ws.
  rewrite !orb_true_iff, !andb_true_iff, !N.leb_le, !N.eqb_eq. lia.
Qed.

Lemma is_lower_alnum_true (c : N) :
  is_lower_alnum c = true <-> (97 <= c <= 122 \/ 48 <= c <= 57).
Proof.
  unfold is_lower_alnum.
  rewrite !orb_true_iff, !andb_true_iff, !N.leb_le. lia.
Qed.

Lemma is_ws_false (c : N) :
  is_ws c = false <-> ~ is_ws c = true.
Proof. destruct (is_ws c); split; congruence. Qed.

Lemma plain_lt_128 c : plain c -> c < 128.
Proof. unfold plain. rewrite is_lower_alnum_true. lia. Qed.

Lemma plain_lower_ascii c : plain c -> lower_ascii c = c.
Proof.
  unfold plain, lower_ascii. rewrite is_lower_alnum_true. intros H.
  destruct (65 <=? c) eqn:H1, (c <=? 90) eqn:H2; simpl; bool_prop; lia.
Qed.

Lemma plain_blank_other c : plain c -> blank_other c = c.
Proof.
  unfold plain, blank_other. intros [H | ->].
  - now rewrite H.
  - reflexivity.
Qed.

Lemma plain_ws c : plain c -> is_ws c = true -> c = 32.
Proof.
  unfold plain. rewrite is_lower_alnum_true, is_ws_true. lia.
Qed.

Lemma blank_other_class c :
  is_lower_alnum (blank_other c) = true \/ is_ws (blank_other c) = true.
Proof.
  unfold blank_other.
  destruct (is_lower_alnum c) eqn:H1; simpl; [now left|].
  destruct (is_ws c) eqn:H2; simpl; now right.
Qed.

(** ** Trimming and whitespace runs *)

Lemma trimStart_length s : (length (trimStart s) <= length s)%nat.
Proof.
  induction s as [|c s IH]; simpl; [lia|].
  destruct (is_ws c); simpl; lia.
Qed.

Lemma trimStart_fixed_head c s : trimStart (c :: s) = c :: s -> is_ws c = false.
Proof.
  simpl. destruct (is_ws c) eqn:Hc; [|reflexivity].
  intros H. pose proof (trimStart_length s) as Hl.
  rewrite H in Hl. simpl in Hl. lia.
Qed.

Lemma trimStart_idem s : trimStart (trimStart s) = trimStart s.
Proof.
  induction s as [|c s IH]; simpl; [reflexivity|].
  destruct (is_ws c) eqn:Hc; [exact IH|].
  simpl. now rewrite Hc.
Qed.

Lemma trimEnd_idem s : trimEnd (trimEnd s) = trimEnd s.
Proof.
  induction s as [|c s IH]; simpl; [reflexivity|].
  destruct (trimEnd s) as [|d t] eqn:Ht.
  - destruct (is_ws c) eqn:Hc; simpl; [reflexivity|now rewrite Hc].
  - change (trimEnd (c :: d :: t)) with
      (match trimEnd (d :: t) with
       | [] => if is_ws c then [] else [c]
       | t' => c :: t'
       end).
    now rewrite IH.
Qed.

Lemma trimEnd_head c s :
  is_ws c = false -> exists t, trimEnd (c :: s) = c :: t.
Proof.
  intros Hc. simpl. destruct (trimEnd s) as [|d t].
  - rewrite Hc. now exists [].
  - now exists (d :: t).
Qed.

Lemma trimStart_trimEnd s : trimStart s = s -> trimStart (trimEnd s) = trimEnd s.
Proof.
  destruct s as [|c s]; [reflexivity|].
  intros H. apply trimStart_fixed_head in H.
  destruct (trimEnd_head c s H) as [t ->].
  simpl. now rewrite H.
Qed.

Lemma trim_trimStart s : trimStart (trim s) = trim s.
Proof. unfold trim. apply trimStart_trimEnd, trimStart_idem. Qed.

Lemma trim_trimEnd s : trimEnd (trim s) = trim s.
Proof. unfold trim. apply trimEnd_idem. Qed.

Lemma trimStart_suffix s : exists p, s = p ++ trimStart s.
Proof.
  induction s as [|c s [p IH]]; simpl.
  - now exists [].
  - destruct (is_ws c).
    + exists (c :: p). simpl. now f_equal.
    + now exists [].
Qed.

Lemma trimEnd_prefix s : exists p, s = trimEnd s ++ p.
Proof.
  induction s as [|c s [p IH]]; simpl.
  - now exists [].
  - destruct (trimEnd s) as [|d t].
    + destruct (is_ws c).
      * exists (c :: s). reflexivity.
      * exists p. simpl in *. now f_equal.
    + exists p. simpl in *. now f_equal.
Qed.

Lemma single_spaced_tail c s : single_spaced (c :: s) = true -> single_spaced s = true.
Proof.
  simpl. destruct s as [|d s]; [reflexivity|].
  intros H. apply andb_true_iff in H. tauto.
Qed.

Lemma single_spaced_app_r p s : single_spaced (p ++ s) = true -> single_spaced s = true.
Proof.
  induction p as [|c p IH]; simpl app; [tauto|].
  intros H. apply IH. eapply single_spaced_tail, H.
Qed.

Lemma single_spaced_app_l s p : single_spaced (s ++ p) = true -> single_spaced s = true.
Proof.
  induction s as [|c s IH]; [reflexivity|].
  intros H. pose proof (single_spaced_tail _ _ H) as Ht.
  specialize (IH Ht).
  destruct s as [|d s]; [reflexivity|].
  simpl in H |- *. apply andb_true_iff in H. destruct H as [H _].
  rewrite H. exact IH.
Qed.

Lemma squeeze_plain b s :
  Forall (fun c => is_lower_alnum c = true \/ is_ws c = true) s ->
  Forall plain (squeeze b s).
Proof.
  intros H. revert b. induction H as [|c s Hc _ IH]; intros b; simpl.
  - constructor.
  - destruct (is_ws c) eqn:Hw.
    + destruct b; [apply IH|]. constructor; [now right|apply IH].
    + constructor; [|apply IH]. left. destruct Hc; congruence.
Qed.

Lemma squeeze_single_spaced b s :
  single_spaced (squeeze b s) = true
  /\ (b = true -> match squeeze b s with c :: _ => is_ws c = false | [] => True end).
Proof.
  revert b. induction s as [|c s IH]; intros b; simpl; [auto|].
  destruct (is_ws c) eqn:Hw.
  - destruct (IH true) as [H1 H2]. specialize (H2 eq_refl).
    destruct b; [auto|]. split; [|discriminate].
    change (single_spaced (32 :: squeeze true s)) with
      (match squeeze true s with
       | d :: _ => negb (is_ws 32 && is_ws d) && single_spaced (squeeze true s)
       | [] => true
       end).
    destruct (squeeze true s) as [|d t]; [reflexivity|].
    rewrite H2, andb_false_r. exact H1.
  - destruct (IH false) as [H1 _]. split; [|auto].
    change (single_spaced (c :: squeeze false s)) with
      (match squeeze false s with
       | d :: _ => negb (is_ws c && is_ws d) && single_spaced (squeeze false s)
       | [] => true
       end).
    destruct (squeeze false s) as [|d t]; [reflexivity|].
    rewrite Hw. exact H1.
Qed.

Lemma squeeze_after_run s :
  match s with c :: _ => is_ws c = false | [] => True end ->
  squeeze true s = squeeze false s.
Proof. destruct s as [|c s]; simpl; [reflexivity|]. now intros ->. Qed.

Lemma squeeze_fixed s :
  Forall plain s -> single_spaced s = true -> squeeze false s = s.
Proof.
  induction s as [|c s IH]; intros Hp Hs; [reflexivity|].
  inversion Hp as [|? ? Hc Hp']; subst.
  pose proof (single_spaced_tail _ _ Hs) as Hs'.
  simpl. destruct (is_ws c) eqn:Hw.
  - rewrite (plain_ws c Hc Hw). f_equal.
    rewrite squeeze_after_run; [now apply IH|].
    destruct s as [|d s]; [exact I|].
    simpl in Hs. apply andb_true_iff in Hs. destruct Hs as [Hs _].
    rewrite Hw in Hs. simpl in Hs. now apply negb_true_iff in Hs.
  - f_equal. now apply IH.
Qed.

Lemma Forall_plain_app_r p s : Forall plain (p ++ s) -> Forall plain s.
Proof. intros H. apply Forall_app in H. tauto. Qed.

Lemma Forall_plain_app_l s p : Forall plain (s ++ p) -> Forall plain s.
Proof. intros H. apply Forall_app in H. tauto. Qed.

Lemma trim_plain s : Forall plain s -> Forall plain (trim s).
Proof.
  intros H. unfold trim.
  destruct (trimStart_suffix s) as [p Hp].
  destruct (trimEnd_prefix (trimStart s)) as [p' Hp'].
  rewrite Hp in H. apply Forall_plain_app_r in H.
  rewrite Hp' in H. now apply Forall_plain_app_l in H.
Qed.

Lemma trim_single_spaced s : single_spaced s = true -> single_spaced (trim s) = true.
Proof.
  intros H. unfold trim.
  destruct (trimStart_suffix s) as [p Hp].
  destruct (trimEnd_prefix (trimStart s)) as [p' Hp'].
  rewrite Hp in H. apply single_spaced_app_r in H.
  rewrite Hp' in H. now apply single_spaced_app_l in H.
Qed.

Section NormProperties.
Context {C : CaseConversion}.

Lemma norm_normalized s : normalized (norm s).
Proof.
  unfold norm. repeat split.
  - apply trim_plain, squeeze_plain.
    apply Forall_map, Forall_forall. intros c _. apply blank_other_class.
  - apply trim_single_spaced, squeeze_single_spaced.
  - apply trim_trimStart.
  - apply trim_trimEnd.
Qed.

Lemma norm_fixed s : normalized s -> norm s = s.
Proof.
  intros (Hp & Hs & Ht1 & Ht2). unfold norm.
  rewrite toLowerCase_basic_latin
    by (eapply Forall_impl; [exact Hp|apply plain_lt_128]).
  assert (map lower_ascii s = s) as ->.
  { clear -Hp. induction Hp as [|c s Hc _ IH]; simpl; [reflexivity|].
    now rewrite (plain_lower_ascii c Hc), IH. }
  assert (map blank_other s = s) as ->.
  { clear -Hp. induction Hp as [|c s Hc _ IH]; simpl; [reflexivity|].
    now rewrite (plain_blank_other c Hc), IH. }
  rewrite (squeeze_fixed s Hp Hs). unfold trim. now rewrite Ht1, Ht2.
Qed.

End NormProperties.

Section NormalizeAgrees.
Context {C : CaseConversion}.

Lemma blank_agree c :
  (if is_lower_alnum c || (c =? 32) then c else 32) = blank_other c
  \/ (is_ws (if is_lower_alnum c || (c =? 32) then c else 32) = true
      /\ is_ws (blank_other c) = true).
Proof.
  unfold blank_other.
  destruct (is_lower_alnum c) eqn:Ha; [now left|].
  destruct (c =? 32) eqn:H32.
  - apply N.eqb_eq in H32. subst c. now left.
  - destruct (is_ws c) eqn:Hw; [right|now left].
    cbn [orb]. split; [reflexivity|exact Hw].
Qed.

Lemma squeeze_cons_ws b c s :
  is_ws c = true ->
  squeeze b (c :: s) = if b then squeeze true s else 32 :: squeeze true s.
Proof. intros H. cbn [squeeze]. now rewrite H. Qed.

Lemma squeeze_blank_agree b s :
  squeeze b (map (fun c => if is_lower_alnum c || (c =? 32) then c else 32) s)
  = squeeze b (map blank_other s).
Proof.
  revert b. induction s as [|c s IH]; intros b; [reflexivity|].
  cbn [map]. destruct (blank_agree c) as [-> | [H1 H2]].
  - cbn [squeeze]. destruct (is_ws (blank_other c)); [destruct b|]; now rewrite IH.
  - rewrite (squeeze_cons_ws b _ _ H1), (squeeze_cons_ws b _ _ H2).
    now rewrite IH.
Qed.

Lemma normalize_norm s : normalize s = norm s.
Proof. unfold normalize, norm. now rewrite squeeze_blank_agree. Qed.
End NormalizeAgrees.

(** C9.  Normalization is idempotent: for every string [s] (any sequence of
    UTF-16 code units), [norm (norm s) = norm s].  The function of the
    source keeps every whitespace code unit in its first replacement and
    collapses it afterwards; that is the same function as the one that
    lower-cases, replaces every code unit outside [[a-z0-9 ]] by a space,
    collapses whitespace runs and trims, which is idempotent as well. *)
Theorem norm_idempotent {C : CaseConversion} (s : list N) :
  norm (norm s) = norm s
  /\ normalize s = norm s
  /\ normalize (normalize s) = normalize s.
Proof.
  assert (norm (norm s) = norm s) as H by apply norm_fixed, norm_normalized.
  split; [exact H|]. split; [apply normalize_norm|].
  now rewrite !normalize_norm.
Qed.

(** ** Substrings *)

Lemma starts_with_spec p s :
  starts_with N.eqb p s = true <-> exists post, s = p ++ post.
Proof.
  revert s. induction p as [|a p IH]; intros s; simpl.
  - split; [intros _; now exists s|reflexivity].
  - destruct s as [|c s].
    + split; [discriminate|]. intros [post H]. discriminate.
    + rewrite andb_true_iff, N.eqb_eq, IH. split.
      * intros [-> [post ->]]. now exists post.
      * intros [post H]. injection H as H1 H2. subst. split; [reflexivity|now exists post].
Qed.

Lemma includes_spec s sub : includes s sub = true <-> substring sub s.
Proof.
  unfold substring. induction s as [|c s IH]; simpl.
  - rewrite orb_false_r, starts_with_spec. split.
    + intros [post H]. now exists [], post.
    + intros (pre & post & H). symmetry in H.
      apply app_eq_nil in H as [-> H]. exists post. now symmetry.
  - rewrite orb_true_iff, starts_with_spec, IH. split.
    + intros [[post H] | (pre & post & H)].
      * now exists [], post.
      * exists (c :: pre), post. simpl. now f_equal.
    + intros (pre & post & H). destruct pre as [|d pre].
      * left. now exists post.
      * right. injection H as H1 H2. now exists pre, post.
Qed.

Lemma includes_empty s : includes s [] = true.
Proof. apply includes_spec. now exists [], s. Qed.

(** ** Jaccard similarity *)

Lemma inter_count (A B : gset (list N)) :
  length (filter (fun x => x ∈ B) (elements A)) = size (A ∩ B).
Proof.
  change (size (A ∩ B)) with (length (elements (A ∩ B))).
  apply Permutation_length, NoDup_Permutation.
  - apply NoDup_filter, NoDup_elements.
  - apply NoDup_elements.
  - intros x. rewrite list_elem_of_filter, !elem_of_elements. set_solver.
Qed.

Lemma union_count (A B : gset (list N)) :
  (size A + size B - size (A ∩ B))%nat = size (A ∪ B).
Proof.
  pose proof (size_union_alt (C := gset (list N)) A B) as Hu.
  pose proof (size_difference_alt (C := gset (list N)) B A) as Hd.
  assert (B ∩ A = A ∩ B) as Hc by set_solver. rewrite Hc in Hd.
  assert (size (A ∩ B) <= size B)%nat
    by (apply (subseteq_size (C := gset (list N))); set_solver).
  lia.
Qed.

(** The counting loop of [jaccard] computes the Jaccard similarity of the
    two sets of tokens. *)
Lemma jaccard_similarity (a b : list (list N)) :
  jaccard a b = similarity (list_to_set a) (list_to_set b).
Proof.
  unfold jaccard, similarity. now rewrite inter_count, union_count.
Qed.

(** ** The duplicate detector *)

Section IsRepeat.
Context {C : CaseConversion}.

Lemma repeat_of_spec question h :
  repeat_of question (tokens question) h = true <-> duplicates question h.
Proof.
  unfold repeat_of, duplicates, token_set. rewrite jaccard_similarity.
  destruct (js_ge _ js_0_7); [tauto|].
  rewrite orb_true_iff, !includes_spec. intuition discriminate.
Qed.

Lemma isRepeat_loop_spec question history :
  isRepeat_loop question (tokens question) history = true
  <-> exists h, h ∈ history /\ duplicates question h.
Proof.
  induction history as [|h rest IH]; simpl.
  - split; [discriminate|]. intros (h & Hin & _). inversion Hin.
  - destruct (repeat_of question (tokens question) h) eqn:Hr.
    + apply repeat_of_spec in Hr. split; [|reflexivity].
      intros _. exists h. split; [left|exact Hr].
    + rewrite IH. split.
      * intros (h' & Hin & Hd). exists h'. split; [now right|exact Hd].
      * intros (h' & Hin & Hd). apply elem_of_cons in Hin as [-> | Hin].
        -- apply repeat_of_spec in Hd. congruence.
        -- now exists h'.
Qed.


(** A candidate that normalizes to the empty string is contained in every
    normalized question, so any history entry flags it. *)
Lemma isRepeat_empty_candidate question h rest :
  norm question = [] -> isRepeat question (h :: rest) = true.
Proof.
  intros Hn. apply isRepeat_loop_spec. exists h. split; [left|].
  right. right. rewrite Hn. now exists [], (norm (q h)).
Qed.
End IsRepeat.

(** C5.  The empty candidate normalizes to the empty string and has no
    tokens, the only entry of the history has a non-empty question, and
    [isRepeat] flags the candidate all the same: the empty string is
    contained in every normalized question. *)
Theorem isRepeat_empty_flagged :
  norm (C := basic_latin) [] = []
  /\ tokens (C := basic_latin) [] = []
  /\ isRepeat (C := basic_latin) []
       [ {| q := lit "Is it an animal?"; a := lit "yes" |} ] = true.
Proof. repeat split; vm_compute; reflexivity. Qed.

(** ** Objects and slices *)

Lemma get_set_same key v o : get_prop key (set_prop key v o) = v.
Proof.
  induction o as [|[k w] o IH]; simpl.
  - now rewrite bool_decide_eq_true_2.
  - destruct (bool_decide (k = key)) eqn:Hk; simpl; now rewrite Hk.
Qed.

Lemma get_set_other key key' v o :
  key <> key' -> get_prop key' (set_prop key v o) = get_prop key' o.
Proof.
  intros Hne. induction o as [|[k w] o IH]; simpl.
  - now rewrite bool_decide_eq_false_2.
  - destruct (bool_decide (k = key)) eqn:Hk; simpl.
    + apply bool_decide_eq_true in Hk. subst k.
      now rewrite !bool_decide_eq_false_2.
    + now rewrite IH.
Qed.

Lemma slice_take (n : nat) (s : list N) : slice 0 (Z.of_nat n) s = take n s.
Proof.
  unfold slice. cbv zeta.
  change (0 <? 0)%Z with false. cbv iota.
  assert ((Z.of_nat n <? 0)%Z = false) as -> by (apply Z.ltb_ge; lia).
  rewrite (Z.min_l 0) by lia. change (Z.to_nat 0) with O.
  rewrite drop_0, Z.sub_0_r.
  destruct (Nat.le_gt_cases n (length s)) as [Hle | Hgt].
  - rewrite Z.min_l by lia. now rewrite Nat2Z.id.
  - rewrite Z.min_r by lia. rewrite Nat2Z.id.
    rewrite !take_ge by lia. reflexivity.
Qed.

Lemma is_string_true s v : is_string s v = true <-> v = VString s.
Proof.
  destruct v; simpl; try (split; [discriminate|intros H; discriminate]).
  rewrite bool_decide_eq_true. split; [now intros ->|now intros [= ->]].
Qed.

(** ** Confidence clamping *)

Lemma SFltb_SFleb x y : SFltb x y = true -> SFleb x y = true.
Proof. unfold SFltb, SFleb. destruct (SFcompare x y) as [[]|]; congruence. Qed.

Lemma clamp_confidence_range v : in_unit_interval (clamp_confidence v).
Proof.
  unfold in_unit_interval, clamp_confidence, js_le.
  destruct v as [| |b|x|s|l|o]; try (split; reflexivity).
  destruct x as [s|s| |s m e]; try (split; reflexivity).
  simpl Number_isFinite. cbv iota. simpl Number_of.
  unfold Math_min, js_one.
  destruct (SFltb (S754_finite s m e) (S754_finite false 4503599627370496 (-52))) eqn:H1.
  - unfold Math_max, js_zero.
    destruct (SFltb (S754_zero false) (S754_finite s m e)) eqn:H0.
    + split; [now apply SFltb_SFleb|now apply SFltb_SFleb].
    + split; reflexivity.
  - split; reflexivity.
Qed.

Lemma clamp_confidence_not_finite v :
  Number_isFinite v = false -> clamp_confidence v = js_zero.
Proof. unfold clamp_confidence. now intros ->. Qed.

Lemma SFcompare_finite_antisym s1 m1 e1 s2 m2 e2 :
  SFcompare (S754_finite s2 m2 e2) (S754_finite s1 m1 e1)
  = option_map CompOpp (SFcompare (S754_finite s1 m1 e1) (S754_finite s2 m2 e2)).
Proof.
  assert (Pos.compare_cont Eq m2 m1 = CompOpp (Pos.compare_cont Eq m1 m2)) as Hm
    by (now rewrite Pos.compare_cont_antisym).
  unfold SFcompare. simpl. rewrite (Z.compare_antisym e1 e2), Hm.
  destruct s1, s2; simpl; try reflexivity;
    destruct (e1 ?= e2)%Z; simpl; try reflexivity;
    destruct (Pos.compare_cont Eq m1 m2); reflexivity.
Qed.

Lemma clamp_confidence_above x :
  Number_isFinite (VNumber x) = true -> SFltb js_one x = true ->
  clamp_confidence (VNumber x) = js_one.
Proof.
  intros Hf H. unfold clamp_confidence. rewrite Hf.
  destruct x as [s|s| |s m e]; try discriminate. simpl.
  unfold Math_min, js_one in *.
  assert (SFltb (S754_finite s m e) (S754_finite false 4503599627370496 (-52)) = false) as ->.
  { unfold SFltb in *. rewrite SFcompare_finite_antisym.
    set (c := SFcompare _ _) in *. clearbody c.
    destruct c as [[]|]; cbn [option_map CompOpp] in *; congruence. }
  reflexivity.
Qed.

Lemma clamp_confidence_below x :
  Number_isFinite (VNumber x) = true -> SFltb x js_zero = true ->
  clamp_confidence (VNumber x) = js_zero.
Proof.
  intros Hf H. unfold clamp_confidence. rewrite Hf.
  destruct x as [s|s| |s m e]; try discriminate.
  destruct s; [reflexivity|discriminate].
Qed.

Lemma clamp_confidence_inside x :
  Number_isFinite (VNumber x) = true ->
  js_le js_zero x = true -> js_le x js_one = true ->
  SFeqb (clamp_confidence (VNumber x)) x = true.
Proof.
  intros Hf H0 H1. unfold clamp_confidence, js_le in *. rewrite Hf.
  destruct x as [s|s| |s m e]; try discriminate.
  - destruct s; reflexivity.
  - destruct s; [discriminate|]. simpl.
    unfold Math_min, js_one in *.
    destruct (SFltb (S754_finite false m e) (S754_finite false 4503599627370496 (-52))) eqn:Hlt.
    + unfold Math_max, js_zero. simpl.
      unfold SFeqb, SFcompare. rewrite Z.compare_refl.
      now rewrite Pos.compare_cont_refl.
    + unfold Math_max, js_zero. simpl.
      unfold SFltb, SFleb, SFeqb in *. rewrite SFcompare_finite_antisym.
      clear H0. set (c := SFcompare _ _) in *. clearbody c.
      destruct c as [[]|]; cbn [option_map CompOpp] in *; congruence.
Qed.

(** ** One attempt of the retry loop *)

Ltac lit_neq :=
  let H := fresh in intros H; vm_compute in H; discriminate H.

Lemma truthy_VString s : truthy (VString s) = negb (bool_decide (s = [])).
Proof. reflexivity. Qed.

Section Attempt.
Context {C : CaseConversion} {F : NumberFormat}.
Variable callFireworks : nat -> list Message -> completion (list (list N * value)).

Lemma truncated_string n text : truncated n (VString text) = take n text.
Proof.
  unfold truncated, js_or. rewrite truthy_VString.
  destruct (bool_decide (text = [])) eqn:H; simpl; [|reflexivity].
  apply bool_decide_eq_true in H. now subst.
Qed.

Lemma truncated_length n v : (length (truncated n v) <= n)%nat.
Proof. unfold truncated. rewrite length_take. lia. Qed.

Lemma attempt_throw history s e :
  callFireworks (attempts s) (messages s) = Throw e ->
  attempt callFireworks history s = Raise e.
Proof. unfold attempt. now intros ->. Qed.

Lemma attempt_ask history s o :
  callFireworks (attempts s) (messages s) = Normal o ->
  is_ask o ->
  attempt callFireworks history s =
    let question := truncated 200 (get_prop (lit "question") o) in
    if bool_decide (question = []) then Raise (lit "Missing question")
    else if isRepeat question history
         then Next (after_attempt s [correction question] (with_question o))
         else Break (after_attempt s [] (with_question o)).
Proof.
  unfold is_ask. intros Hc Ht. unfold attempt. rewrite Hc, Ht.
  assert (is_string (lit "ask") (VString (lit "ask")) = true) as ->
    by now apply is_string_true.
  rewrite get_set_same, truthy_VString, negb_involutive.
  change 200%Z with (Z.of_nat 200). rewrite slice_take.
  fold (truncated 200 (get_prop (lit "question") o)).
  cbv zeta. destruct (bool_decide _); [reflexivity|].
  unfold after_attempt, with_question. simpl ToString.
  rewrite app_nil_r. reflexivity.
Qed.

Lemma attempt_guess history s o :
  callFireworks (attempts s) (messages s) = Normal o ->
  is_guess_or_final o ->
  attempt callFireworks history s =
    if bool_decide (truncated 120 (get_prop (lit "guess") o) = [])
    then Raise (lit "Missing guess")
    else Break (after_attempt s [] (with_guess o)).
Proof.
  intros Hc Ht. unfold attempt. rewrite Hc.
  assert (is_string (lit "ask") (get_prop (lit "type") o) = false) as ->.
  { destruct Ht as [-> | ->]; reflexivity. }
  assert (is_string (lit "guess") (get_prop (lit "type") o)
          || is_string (lit "final") (get_prop (lit "type") o) = true) as ->.
  { destruct Ht as [-> | ->]; reflexivity. }
  rewrite (get_set_other (lit "confidence") (lit "guess")) by lit_neq.
  rewrite get_set_same, truthy_VString, negb_involutive.
  rewrite (get_set_other (lit "guess") (lit "confidence")) by lit_neq.
  change 120%Z with (Z.of_nat 120). rewrite slice_take.
  fold (truncated 120 (get_prop (lit "guess") o)).
  destruct (bool_decide _); [reflexivity|].
  unfold after_attempt, with_guess. rewrite app_nil_r. reflexivity.
Qed.

Lemma attempt_other history s o :
  callFireworks (attempts s) (messages s) = Normal o ->
  ~ is_ask o -> ~ is_guess_or_final o ->
  attempt callFireworks history s = Raise (lit "Invalid type").
Proof.
  unfold is_ask, is_guess_or_final. intros Hc Ha Hg. unfold attempt. rewrite Hc.
  destruct (is_string (lit "ask") _) eqn:H1.
  { apply is_string_true in H1. contradiction. }
  destruct (is_string (lit "guess") _) eqn:H2.
  { apply is_string_true in H2. tauto. }
  destruct (is_string (lit "final") _) eqn:H3.
  { apply is_string_true in H3. tauto. }
  reflexivity.
Qed.

Lemma ask_not_guess o : is_ask o -> ~ is_guess_or_final o.
Proof.
  unfold is_ask, is_guess_or_final. intros -> [H | H]; vm_compute in H; discriminate.
Qed.

Lemma with_question_valid o :
  is_ask o -> truncated 200 (get_prop (lit "question") o) <> [] ->
  valid_action (with_question o).
Proof.
  intros Ht Hq. left. unfold with_question. split.
  - rewrite get_set_other by lit_neq. exact Ht.
  - eexists. rewrite get_set_same. split; [reflexivity|].
    split; [exact Hq|apply truncated_length].
Qed.

Lemma with_guess_valid o :
  is_guess_or_final o -> truncated 120 (get_prop (lit "guess") o) <> [] ->
  valid_action (with_guess o).
Proof.
  intros Ht Hg. right. unfold with_guess. split.
  - rewrite !get_set_other by lit_neq. exact Ht.
  - eexists _, _. rewrite get_set_same.
    rewrite (get_set_other (lit "confidence") (lit "guess")) by lit_neq.
    rewrite get_set_same.
    split; [reflexivity|]. split; [exact Hg|].
    split; [apply truncated_length|].
    split; [reflexivity|apply clamp_confidence_range].
Qed.

Lemma is_ask_dec o : is_ask o \/ ~ is_ask o.
Proof.
  unfold is_ask. destruct (is_string (lit "ask") (get_prop (lit "type") o)) eqn:H.
  - left. now apply is_string_true.
  - right. intros H'. apply is_string_true in H'. congruence.
Qed.

Lemma is_guess_or_final_dec o : is_guess_or_final o \/ ~ is_guess_or_final o.
Proof.
  unfold is_guess_or_final.
  destruct (is_string (lit "guess") (get_prop (lit "type") o)) eqn:H1.
  { left. left. now apply is_string_true. }
  destruct (is_string (lit "final") (get_prop (lit "type") o)) eqn:H2.
  { left. right. now apply is_string_true. }
  right. intros [H | H]; apply is_string_true in H; congruence.
Qed.

(** Whatever an attempt leaves in [obj] is a valid action, and the
    attempt counter grows by one. *)
Lemma attempt_valid history s s' :
  attempt callFireworks history s = Next s'
  \/ attempt callFireworks history s = Break s' ->
  attempts s' = S (attempts s)
  /\ exists o, obj s' = Some o /\ valid_action o.
Proof.
  destruct (callFireworks (attempts s) (messages s)) as [o|e] eqn:Hc.
  2:{ rewrite (attempt_throw _ _ _ Hc). intros [H | H]; discriminate. }
  destruct (is_ask_dec o) as [Ha | Ha].
  - rewrite (attempt_ask _ _ _ Hc Ha). cbv zeta.
    destruct (bool_decide _) eqn:Hq; [intros [H | H]; discriminate|].
    apply bool_decide_eq_false in Hq.
    destruct (isRepeat _ history); intros [H | H]; try discriminate;
      injection H as <-; (split; [reflexivity|]);
      eexists; (split; [reflexivity|]); now apply with_question_valid.
  - destruct (is_guess_or_final_dec o) as [Hg | Hg].
    + rewrite (attempt_guess _ _ _ Hc Hg).
      destruct (bool_decide _) eqn:Hq; [intros [H | H]; discriminate|].
      apply bool_decide_eq_false in Hq.
      intros [H | H]; try discriminate. injection H as <-.
      split; [reflexivity|]. eexists. split; [reflexivity|].
      now apply with_guess_valid.
    + rewrite (attempt_other _ _ _ Hc Ha Hg). intros [H | H]; discriminate.
Qed.
End Attempt.

(** ** The retry loop *)

Section RetryLoop.
Context {C : CaseConversion} {F : NumberFormat}.
Variable callFireworks : nat -> list Message -> completion (list (list N * value)).
Variable history : list HistoryEntry.

Lemma retry_loop_step fuel s :
  (attempts s < 3)%nat ->
  retry_loop callFireworks (S fuel) history s =
    match attempt callFireworks history s with
    | Next s' => retry_loop callFireworks fuel history s'
    | Break s' => Some (Normal s')
    | Raise e => Some (Throw e)
    end.
Proof.
  intros H. cbn [retry_loop].
  assert ((attempts s <? 3)%nat = true) as -> by now apply Nat.ltb_lt.
  reflexivity.
Qed.

Lemma retry_loop_done fuel s :
  (3 <= attempts s)%nat -> retry_loop callFireworks fuel history s = Some (Normal s).
Proof.
  intros H.
  assert ((attempts s <? 3)%nat = false) as Hlt by now apply Nat.ltb_ge.
  destruct fuel; cbn [retry_loop]; now rewrite Hlt.
Qed.


(** The loop never makes the attempt counter exceed 3, and whatever it
    returns after at least one attempt is a valid action. *)
Lemma retry_loop_returns fuel s s' :
  retry_loop callFireworks fuel history s = Some (Normal s') ->
  (attempts s < 3)%nat ->
  (attempts s < attempts s' <= 3)%nat
  /\ exists o, obj s' = Some o /\ valid_action o.
Proof.
  revert s. induction fuel as [|fuel IH]; intros s Hr Hlt.
  - cbn [retry_loop] in Hr.
    assert ((attempts s <? 3)%nat = true) as Hb by now apply Nat.ltb_lt.
    rewrite Hb in Hr. discriminate.
  - rewrite (retry_loop_step _ _ Hlt) in Hr.
    destruct (attempt callFireworks history s) as [s1|s1|e] eqn:Ha.
    + destruct (attempt_valid callFireworks history s s1 (or_introl Ha)) as [Hs1 Hv].
      destruct (Nat.lt_ge_cases (attempts s1) 3) as [Hlt1 | Hge1].
      * destruct (IH s1 Hr Hlt1) as [Hb Hv']. split; [lia|exact Hv'].
      * rewrite (retry_loop_done _ _ Hge1) in Hr. injection Hr as <-.
        split; [lia|exact Hv].
    + destruct (attempt_valid callFireworks history s s1 (or_intror Ha)) as [Hs1 Hv].
      injection Hr as <-. split; [lia|exact Hv].
    + discriminate.
Qed.

Lemma after_attempt_nil s o :
  after_attempt s [] o
  = {| attempts := S (attempts s); messages := messages s; obj := Some o |}.
Proof. unfold after_attempt. now rewrite app_nil_r. Qed.



End RetryLoop.

Section Handler.
Context {C : CaseConversion} {F : NumberFormat}.
Variable callFireworks : nat -> list Message -> completion (list (list N * value)).

Lemma api_step_thrown body e :
  retry_loop callFireworks 3 (history (context_of body))
    (initial_state (context_of body)) = Some (Throw e) ->
  api_step callFireworks true body
  = Some (Response 500 (error_body (str_or e (lit "Server error")))).
Proof. intros H. unfold api_step. cbn [negb]. now rewrite H. Qed.

Lemma api_step_ok api_key body v :
  api_step callFireworks api_key body = Some (Response 200 v) ->
  exists s, retry_loop callFireworks 3 (history (context_of body))
              (initial_state (context_of body)) = Some (Normal s)
            /\ v = match obj s with Some o => VObject o | None => VUndefined end.
Proof.
  unfold api_step. destruct api_key; cbn [negb]; [|discriminate].
  destruct (retry_loop _ _ _ _) as [[s|e]|]; try discriminate.
  intros [= <-]. now exists s.
Qed.

Lemma attempt_guess_stored history s o s' :
  callFireworks (attempts s) (messages s) = Normal o ->
  is_guess_or_final o ->
  attempt callFireworks history s = Break s' ->
  obj s' = Some (with_guess o)
  /\ get_prop (lit "confidence") (with_guess o)
     = VNumber (clamp_confidence (get_prop (lit "confidence") o))
  /\ get_prop (lit "guess") (with_guess o) = VString (guessed o).
Proof.
  intros Hc Hg. rewrite (attempt_guess _ _ _ _ Hc Hg).
  destruct (bool_decide _); [discriminate|]. intros [= <-].
  split; [reflexivity|]. unfold with_guess. split.
  - now rewrite get_set_same.
  - rewrite (get_set_other (lit "confidence") (lit "guess")) by lit_neq.
    now rewrite get_set_same.
Qed.
End Handler.



(** C4 (amended).  Every body sent with status 200 by the step handler is
    an object whose [type] is ask, guess or final; an ask carries a
    non-empty question of at most 200 code units, a guess or final a
    non-empty guess of at most 120 code units and a confidence between 0
    and 1.  (Whatever other properties the model's object had are still in
    it.) *)
Theorem api_step_returns_valid_action {C : CaseConversion} {F : NumberFormat}
    (callFireworks : nat -> list Message -> completion (list (list N * value)))
    (api_key : bool) (body : StepBody) (v : value) :
  api_step callFireworks api_key body = Some (Response 200 v) ->
  exists o, v = VObject o /\ valid_action o.
Proof.
  intros H. apply api_step_ok in H as (s & Hr & ->).
  destruct (retry_loop_returns callFireworks _ 3 _ s Hr) as [_ (o & Ho & Hv)].
  { cbn [initial_state attempts]. lia. }
  exists o. now rewrite Ho.
Qed.

Lemma api_step_returns_valid_action_witness :
  api_step (C := basic_latin) (F := exact_format)
    (scripted [ask_action (VString (lit "Is the person male?"))])
    true empty_body
  = Some (Response 200 (VObject (ask_action (VString (lit "Is the person male?")))))
  /\ exists o,
       VObject (ask_action (VString (lit "Is the person male?"))) = VObject o
       /\ valid_action o.
Proof.
  split; [vm_compute; reflexivity|].
  apply (api_step_returns_valid_action (C := basic_latin) (F := exact_format)
           (scripted [ask_action (VString (lit "Is the person male?"))])
           true empty_body).
  vm_compute. reflexivity.
Defined.

(** C4, counterexample.  An ask action that also carries a guess, a
    confidence and a property of no shape is returned with status 200 as it
    came: the fields of the other shapes stay populated. *)
Lemma extra_fields_are_returned :
  api_step (C := basic_latin) (F := exact_format)
    (scripted
       [ ask_action (VString (lit "Is it real?"))
           ++ [ (lit "guess", VString (lit "Einstein"));
                (lit "confidence", VNumber js_1_5);
                (lit "note", VBool true) ] ])
    true empty_body
  = Some (Response 200
      (VObject
         [ (lit "type", VString (lit "ask"));
           (lit "question", VString (lit "Is it real?"));
           (lit "guess", VString (lit "Einstein"));
           (lit "confidence", VNumber js_1_5);
           (lit "note", VBool true) ])).
Proof. vm_compute. reflexivity. Qed.

(** C6.  An ask action's question is stored as the first 200 code units of
    its text and the attempt throws [Missing question] exactly when that
    text is empty; a guess or final action's guess is stored as the first
    120 code units and the attempt throws [Missing guess] exactly when it is
    empty; an action of any other type throws [Invalid type].  A thrown
    error ends the loop, and the handler answers it with status 500. *)
Theorem validation_errors {C : CaseConversion} {F : NumberFormat}
    (callFireworks : nat -> list Message -> completion (list (list N * value)))
    (h : list HistoryEntry) (s : loop_state) (o : list (list N * value)) :
  callFireworks (attempts s) (messages s) = Normal o ->
  (is_ask o ->
     (attempt callFireworks h s = Raise (lit "Missing question")
        <-> asked o = [])
     /\ (forall s',
           attempt callFireworks h s = Next s'
           \/ attempt callFireworks h s = Break s' ->
           exists o', obj s' = Some o'
                      /\ get_prop (lit "question") o' = VString (asked o))
     /\ (forall text,
           get_prop (lit "question") o = VString text -> asked o = take 200 text))
  /\ (is_guess_or_final o ->
        (attempt callFireworks h s = Raise (lit "Missing guess")
           <-> guessed o = [])
        /\ (forall s',
              attempt callFireworks h s = Break s' ->
              exists o', obj s' = Some o'
                         /\ get_prop (lit "guess") o' = VString (guessed o))
        /\ (forall text,
              get_prop (lit "guess") o = VString text -> guessed o = take 120 text))
  /\ (~ is_ask o -> ~ is_guess_or_final o ->
        attempt callFireworks h s = Raise (lit "Invalid type"))
  /\ (forall fuel e,
        (attempts s < 3)%nat ->
        attempt callFireworks h s = Raise e ->
        retry_loop callFireworks (S fuel) h s = Some (Throw e))
  /\ (forall body e,
        retry_loop callFireworks 3 (history (context_of body))
          (initial_state (context_of body)) = Some (Throw e) ->
        api_step callFireworks true body
        = Some (Response 500 (error_body (str_or e (lit "Server error"))))).
Proof.
  intros Hc. repeat apply conj.
  - intros Ha. rewrite (attempt_ask _ _ _ _ Hc Ha). cbv zeta. fold (asked o).
    split; [|split].
    + destruct (bool_decide (asked o = [])) eqn:Hq.
      * apply bool_decide_eq_true in Hq. tauto.
      * apply bool_decide_eq_false in Hq.
        split; [|tauto]. destruct (isRepeat _ _); discriminate.
    + intros s' Hs'. destruct (bool_decide (asked o = []));
        [destruct Hs'; discriminate|].
      exists (with_question o). unfold with_question. rewrite get_set_same.
      split; [|reflexivity].
      destruct (isRepeat _ _); destruct Hs' as [H | H]; try discriminate;
        now injection H as <-.
    + intros text Ht. unfold asked. rewrite Ht. apply truncated_string.
  - intros Hg. rewrite (attempt_guess _ _ _ _ Hc Hg). fold (guessed o).
    split; [|split].
    + destruct (bool_decide (guessed o = [])) eqn:Hq.
      * apply bool_decide_eq_true in Hq. tauto.
      * apply bool_decide_eq_false in Hq. split; [discriminate|tauto].
    + intros s' Hs'.
      destruct (attempt_guess_stored callFireworks h s o s' Hc Hg)
        as (Ho & _ & Hgs).
      { now rewrite (attempt_guess _ _ _ _ Hc Hg). }
      now exists (with_guess o).
    + intros text Ht. unfold guessed. rewrite Ht. apply truncated_string.
  - intros Ha Hg. exact (attempt_other _ _ _ o Hc Ha Hg).
  - intros fuel e Hlt Hr. now rewrite (retry_loop_step _ _ _ _ Hlt), Hr.
  - intros body e. apply api_step_thrown.
Qed.

Lemma validation_errors_witness :
  scripted [ask_action (VString [])] 0%nat [] = Normal (ask_action (VString []))
  /\ attempt (C := basic_latin) (F := exact_format)
       (scripted [ask_action (VString [])]) []
       {| attempts := 0; messages := []; obj := None |}
     = Raise (lit "Missing question").
Proof.
  split; [reflexivity|].
  apply (proj1 (proj1 (validation_errors (C := basic_latin) (F := exact_format)
                  (scripted [ask_action (VString [])]) []
                  {| attempts := 0; messages := []; obj := None |}
                  (ask_action (VString [])) eq_refl) eq_refl)).
  reflexivity.
Defined.

(** C7.  For every guess or final action the stored confidence is the
    clamped input and lies between 0 and 1: a finite number above 1 is
    stored as 1, one below 0 as 0, one inside the interval keeps its value,
    and an input that is not a finite number (NaN, an infinity, a missing
    field, a value of another type) is stored as 0.  In particular 1.5
    becomes 1, -0.2 becomes 0, and NaN and a missing field become 0. *)
Theorem confidence_clamped {C : CaseConversion} {F : NumberFormat}
    (callFireworks : nat -> list Message -> completion (list (list N * value)))
    (history : list HistoryEntry) (s : loop_state) (o : list (list N * value)) :
  callFireworks (attempts s) (messages s) = Normal o ->
  is_guess_or_final o ->
  (forall s',
     attempt callFireworks history s = Break s' ->
     exists o', obj s' = Some o'
       /\ get_prop (lit "confidence") o'
          = VNumber (clamp_confidence (get_prop (lit "confidence") o)))
  /\ in_unit_interval (clamp_confidence (get_prop (lit "confidence") o))
  /\ (Number_isFinite (get_prop (lit "confidence") o) = false ->
      clamp_confidence (get_prop (lit "confidence") o) = js_zero)
  /\ (forall x,
        get_prop (lit "confidence") o = VNumber x ->
        Number_isFinite (VNumber x) = true ->
        (SFltb js_one x = true -> clamp_confidence (VNumber x) = js_one)
        /\ (SFltb x js_zero = true -> clamp_confidence (VNumber x) = js_zero)
        /\ (js_le js_zero x = true -> js_le x js_one = true ->
            SFeqb (clamp_confidence (VNumber x)) x = true))
  /\ clamp_confidence (VNumber js_1_5) = js_one
  /\ clamp_confidence (VNumber js_minus_0_2) = js_zero
  /\ clamp_confidence (VNumber S754_nan) = js_zero
  /\ clamp_confidence VUndefined = js_zero.
Proof.
  intros Hc Hg.
  split.
  { intros s' Hs'.
    destruct (attempt_guess_stored callFireworks history s o s' Hc Hg Hs')
      as (Ho & Hconf & _).
    now exists (with_guess o). }
  split; [apply clamp_confidence_range|].
  split; [apply clamp_confidence_not_finite|].
  split.
  { intros x _ Hf. split; [|split].
    - now apply clamp_confidence_above.
    - now apply clamp_confidence_below.
    - now apply clamp_confidence_inside. }
  repeat split; reflexivity.
Qed.

Lemma confidence_clamped_witness :
  in_unit_interval
    (clamp_confidence
       (get_prop (lit "confidence")
          (guess_action (lit "guess") (VString (lit "Einstein")) (VNumber js_1_5)))).
Proof.
  apply (confidence_clamped (C := basic_latin) (F := exact_format)
           (scripted [guess_action (lit "guess") (VString (lit "Einstein"))
                        (VNumber js_1_5)])
           [] {| attempts := 0; messages := []; obj := None |}
           (guess_action (lit "guess") (VString (lit "Einstein")) (VNumber js_1_5))
           eq_refl (or_introl eq_refl)).
Defined.



(** ** The user prompt *)

Lemma join_nonempty sep (parts : list (list N)) :
  (exists p rest, parts = p :: rest /\ p <> []) -> join sep parts <> [].
Proof.
  intros (p & rest & -> & Hp). cbn [join].
  destruct rest; [exact Hp|].
  destruct p; [contradiction|discriminate].
Qed.

Section UserPrompt.
Context {C : CaseConversion}.

Lemma fact_line_nonempty i x : fact_line i x <> [].
Proof. unfold fact_line. discriminate. Qed.

Lemma structuredFacts_cases (h : list HistoryEntry) :
  structuredFacts h
  = match h with
    | [] => lit "(no previous questions)"
    | _ :: _ => join [10] (imap fact_line h)
    end.
Proof.
  unfold structuredFacts. destruct h as [|x h]; [reflexivity|].
  assert (join [10] (imap fact_line (x :: h)) <> []) as Hne.
  { apply join_nonempty. cbn [imap]. eexists _, _.
    split; [reflexivity|apply fact_line_nonempty]. }
  destruct (join [10] (imap fact_line (x :: h))); [contradiction|reflexivity].
Qed.

(** C8 (amended).  [buildUser] is a function of its context alone.  Its
    output is ten newline-separated parts: the domain line, a header, the
    facts, an empty line, three directives, the flag line for
    [forceFinal], the hint line, and the strict-JSON instruction.  The
    facts are the placeholder [(no previous questions)] when the history
    is empty, and otherwise one line [Q{i}: question -> answer] per entry
    in order, numbered from 1, where question and answer are the
    lower-cased texts of the entry.  The hint line is [Player hint: ...]
    exactly when the hint is not empty, and [(no hint)] otherwise. *)
Theorem buildUser_layout (ctx : PromptContext) :
  buildUser ctx
  = join [10]
      [ lit "We are playing 20 Questions. Domain: " ++ domain ctx ++ lit ".";
        lit "Here are all facts discovered so far:";
        match history ctx with
        | [] => lit "(no previous questions)"
        | _ :: _ =>
            join [10]
              (imap (fun i x =>
                       lit "Q" ++ decimal (N.of_nat (i + 1)) ++ lit ": "
                       ++ toLowerCase (q x) ++ [32; 8594; 32]
                       ++ toLowerCase (a x))
                    (history ctx))
        end;
        [];
        lit "Based on these facts, reason logically to choose the next most informative question.";
        lit "Your question should reduce uncertainty the most and move closer to a confident guess.";
        lit "Focus on attributes not yet covered (e.g. nationality, occupation, historical era, public role, media type, field of work, notable achievements).";
        (if forceFinal ctx
         then lit "forceFinal=true " ++ [8594] ++ lit " make your best final guess."
         else lit "forceFinal=false " ++ [8594] ++ lit " ask the next question logically.");
        (if bool_decide (hint ctx = []) then lit "(no hint)"
         else lit "Player hint: " ++ hint ctx);
        lit "Return ONLY strict JSON." ]
  /\ (forall ctx', ctx' = ctx -> buildUser ctx' = buildUser ctx)
  /\ length (imap fact_line (history ctx)) = length (history ctx)
  /\ (forall i x, history ctx !! i = Some x ->
        imap fact_line (history ctx) !! i = Some (fact_line i x)).
Proof.
  split; [|split; [|split]].
  - unfold buildUser. rewrite structuredFacts_cases.
    destruct (hint ctx) as [|c t]; reflexivity.
  - now intros ctx' ->.
  - apply length_imap.
  - intros i x Hx. now rewrite list_lookup_imap, Hx.
Qed.
End UserPrompt.

(** C8, counterexample.  For the entry [Is it a man?] answered [Yes] the
    rendered line is the lower-cased [Q1: is it a man? -> yes]; the line
    with the entry's own text does not occur in the prompt. *)
Lemma buildUser_lowercases_history :
  structuredFacts (C := basic_latin)
    [ {| q := lit "Is it a man?"; a := lit "Yes" |} ]
  = lit "Q1: is it a man? " ++ [8594] ++ lit " yes"
  /\ includes
       (buildUser (C := basic_latin)
          {| domain := lit "character";
             history := [ {| q := lit "Is it a man?"; a := lit "Yes" |} ];
             forceFinal := false; hint := [] |})
       (lit "Q1: Is it a man? " ++ [8594] ++ lit " Yes") = false.
Proof. split; vm_compute; reflexivity. Qed.

(** ** The response interpreter against its reference definition *)

Lemma first_position_cons c d s :
  first_position c (d :: s)
  = if d =? c then Some O else S <$> first_position c s.
Proof.
  unfold first_position. cbn [list_find].
  destruct (N.eqb_spec d c) as [-> | Hne].
  - now rewrite decide_True.
  - rewrite decide_False by exact Hne.
    destruct (list_find _ s) as [[i x]|]; reflexivity.
Qed.

Lemma first_position_lt c s i : first_position c s = Some i -> (i < length s)%nat.
Proof.
  revert i. induction s as [|d s IH]; intros i; [discriminate|].
  rewrite first_position_cons. destruct (d =? c).
  - intros [= <-]. cbn [length]. lia.
  - destruct (first_position c s) as [k|]; [|discriminate].
    intros [= <-]. specialize (IH k eq_refl). cbn [length]. lia.
Qed.

Lemma indexOf_first_position c s :
  indexOf c s = match first_position c s with
                | Some i => Z.of_nat i
                | None => (-1)%Z
                end.
Proof.
  induction s as [|d s IH]; [reflexivity|].
  cbn [indexOf]. rewrite first_position_cons. destruct (d =? c); [reflexivity|].
  rewrite IH. destruct (first_position c s) as [i|]; cbn [fmap option_fmap option_map].
  - assert ((Z.of_nat i <? 0)%Z = false) as -> by (apply Z.ltb_ge; lia). lia.
  - reflexivity.
Qed.

Lemma lastIndexOf_snoc c s d :
  lastIndexOf c (s ++ [d])
  = if d =? c then Z.of_nat (length s) else lastIndexOf c s.
Proof.
  induction s as [|e s IH].
  - cbn [app lastIndexOf length]. destruct (d =? c); reflexivity.
  - change ((e :: s) ++ [d]) with (e :: (s ++ [d])).
    cbn [lastIndexOf]. rewrite IH. destruct (d =? c); [|reflexivity].
    assert ((0 <=? Z.of_nat (length s))%Z = true) as -> by (apply Z.leb_le; lia).
    cbn [length]. lia.
Qed.

Lemma lastIndexOf_last_position c s :
  lastIndexOf c s = match last_position c s with
                    | Some j => Z.of_nat j
                    | None => (-1)%Z
                    end.
Proof.
  induction s as [|d s IH] using rev_ind; [reflexivity|].
  rewrite lastIndexOf_snoc. unfold last_position in *.
  rewrite reverse_snoc, first_position_cons, length_app. cbn [length].
  destruct (d =? c).
  - cbn [fmap option_fmap option_map]. f_equal. lia.
  - rewrite IH. destruct (first_position c (reverse s)) as [i|] eqn:Hi;
      cbn [fmap option_fmap option_map]; [|reflexivity].
    apply first_position_lt in Hi. rewrite length_reverse in Hi. f_equal. lia.
Qed.

Lemma last_position_lt c s j : last_position c s = Some j -> (j < length s)%nat.
Proof.
  unfold last_position.
  destruct (first_position c (reverse s)) as [i|] eqn:Hi; [|discriminate].
  apply first_position_lt in Hi. rewrite length_reverse in Hi.
  intros [= <-]. lia.
Qed.

Lemma slice_region i j s :
  (i < length s)%nat -> (j < length s)%nat ->
  slice (Z.of_nat i) (Z.of_nat j + 1) s = region i j s.
Proof.
  intros Hi Hj. unfold slice, region. cbv zeta.
  assert ((Z.of_nat i <? 0)%Z = false) as -> by (apply Z.ltb_ge; lia).
  assert ((Z.of_nat j + 1 <? 0)%Z = false) as -> by (apply Z.ltb_ge; lia).
  rewrite !Z.min_l by lia. rewrite Nat2Z.id. f_equal. lia.
Qed.

(** *** The scanners of the source against the steps of the reference *)











Lemma match_trailing_comma_none c t : c <> 44 -> match_trailing_comma (c :: t) = None.
Proof.
  intros Hc. unfold match_trailing_comma.
  destruct c as [|p]; [reflexivity|].
  do 6 (destruct p as [p|p|]; try reflexivity). congruence.
Qed.

Lemma match_single_quoted_none c t : c <> 58 -> match_single_quoted (c :: t) = None.
Proof.
  intros Hc. unfold match_single_quoted.
  destruct c as [|p]; [reflexivity|].
  do 6 (destruct p as [p|p|]; try reflexivity). congruence.
Qed.

Lemma trimEnd_snoc s c : is_ws c = false -> trimEnd (s ++ [c]) = s ++ [c].
Proof.
  intros Hc. induction s as [|d s IH].
  - cbn [app trimEnd]. now rewrite Hc.
  - change ((d :: s) ++ [c]) with (d :: (s ++ [c])).
    cbn [trimEnd]. rewrite IH. destruct (s ++ [c]) eqn:E; [|reflexivity].
    now destruct s.
Qed.











(** The second fence replacement of the source finds nothing to remove:
    what the first one leaves has no three backquotes in a row. *)














(** The steps of the reference on the texts the specification gives as
    examples: a reasoning block in upper case, a fence with its language
    tag, surrounding whitespace, and an object with a single-quoted value
    and a trailing comma. *)

Example strip_think_blocks_example :
  strip_think_blocks (lit "<THINK>why</Think>{}<think>open") = lit "{}<think>open".
Proof. vm_compute. reflexivity. Qed.

Example strip_fence_markers_example :
  strip_fence_markers (lit "```JSON{}```` ``") = lit "{}` ``".
Proof. vm_compute. reflexivity. Qed.

Example trim_whitespace_example :
  trim_whitespace ([32; 10] ++ lit "{ }" ++ [9; 13]) = lit "{ }".
Proof. vm_compute. reflexivity. Qed.

Example repair_example :
  repair ([123; 34] ++ lit "a" ++ [34; 58; 39] ++ lit "b" ++ [39; 44; 32; 125])
  = [123; 34] ++ lit "a" ++ [34; 58; 32; 34] ++ lit "b" ++ [34; 125].
Proof. vm_compute. reflexivity. Qed.

Section Interpreter.
Context {F : NumberFormat} {J : JsonParser}.

Lemma extractJson_truthy text :
  truthy text = true ->
  extractJson text = Normal (
    let t := trim (strip_noise (ToString text)) in
    match first_position 123 t, last_position 125 t with
    | Some i, Some j =>
        match JSON_parse (region i j t) with
        | Some v => v
        | None =>
            match JSON_parse (cleanup (region i j t)) with
            | Some v => v
            | None => VNull
            end
        end
    | _, _ => VNull
    end).
Proof.
  intros Ht. unfold extractJson. rewrite Ht. cbn [negb]. cbv zeta.
  set (t := trim (strip_noise (ToString text))).
  rewrite indexOf_first_position, lastIndexOf_last_position.
  destruct (first_position 123 t) as [i|] eqn:Hi; [|reflexivity].
  destruct (last_position 125 t) as [j|] eqn:Hj.
  2:{ assert ((Z.of_nat i =? -1)%Z = false) as -> by (apply Z.eqb_neq; lia).
      reflexivity. }
  assert ((Z.of_nat i =? -1)%Z = false) as -> by (apply Z.eqb_neq; lia).
  assert ((Z.of_nat j =? -1)%Z = false) as -> by (apply Z.eqb_neq; lia).
  cbn [orb].
  rewrite slice_region
    by (eauto using first_position_lt, last_position_lt).
  unfold parse, try_catch.
  destruct (JSON_parse (region i j t)); [reflexivity|].
  destruct (JSON_parse (cleanup (region i j t))); reflexivity.
Qed.

End Interpreter.

(** ** The examples of the specification, evaluated *)

Example isRepeat_punctuation_variant :
  isRepeat (C := basic_latin) (lit "is it a man")
    [ {| q := lit "Is it a man?"; a := lit "yes" |} ] = true.
Proof. vm_compute. reflexivity. Qed.

Example isRepeat_unrelated_question :
  isRepeat (C := basic_latin) (lit "Is it from the 20th century?")
    [ {| q := lit "Is it an animal?"; a := lit "yes" |} ] = false.
Proof. vm_compute. reflexivity. Qed.

Example strip_noise_fenced_block :
  trim (strip_noise
          (lit "```json" ++ [10] ++ lit "{x}" ++ [10] ++ lit "```"))
  = lit "{x}".
Proof. vm_compute. reflexivity. Qed.

Example strip_noise_think_block :
  trim (strip_noise (lit "<think>reasoning...</think>{x}")) = lit "{x}".
Proof. vm_compute. reflexivity. Qed.

Example cleanup_trailing_comma :
  cleanup (lit "{x: 0.8,}") = lit "{x: 0.8}".
Proof. vm_compute. reflexivity. Qed.

Example orchestrator_returns_fresh_question :
  api_step (C := basic_latin) (F := exact_format)
    (scripted [ask_action (VString (lit "Is the person male?"))])
    true empty_body
  = Some (Response 200
            (VObject (ask_action (VString (lit "Is the person male?"))))).
Proof. vm_compute. reflexivity. Qed.

Example orchestrator_discards_repeated_question :
  api_step (C := basic_latin) (F := exact_format)
    (scripted [ ask_action (VString (lit "is it a man"));
                ask_action (VString (lit "Is the person a public figure?")) ])
    true
    {| body_domain := None;
       body_history := Some [ {| q := lit "Is it a man?"; a := lit "yes" |} ];
       body_forceFinal := None; body_hint := None |}
  = Some (Response 200
            (VObject (ask_action (VString (lit "Is the person a public figure?"))))).
Proof. vm_compute. reflexivity. Qed.

Example literal_0_7_is_nearest_double :
  fdiv (of_Z 7) (of_Z 10) = js_0_7
  /\ fdiv (of_Z 3) (of_Z 2) = js_1_5
  /\ fdiv (of_Z (-1)) (of_Z 5) = js_minus_0_2
  /\ of_Z 1 = js_one.
Proof. repeat split; vm_compute; reflexivity. Qed.

(* ================================================================== *)
(** * Part III: further properties of the code *)
(* ================================================================== *)

(** ** The duplicate detector *)

Lemma similarity_symmetric (A B : gset (list N)) : similarity A B = similarity B A.
Proof.
  unfold similarity.
  assert (A ∪ B = B ∪ A) as -> by set_solver.
  assert (A ∩ B = B ∩ A) as -> by set_solver.
  reflexivity.
Qed.

(** X1.  [jaccard] is symmetric: exchanging the two token lists gives the
    same number, whatever their order and repetitions. *)
Theorem jaccard_symmetric (a b : list (list N)) : jaccard a b = jaccard b a.
Proof. rewrite !jaccard_similarity. apply similarity_symmetric. Qed.

Lemma split_on_pieces (P : N -> Prop) sep s :
  Forall P s ->
  Forall (fun w => Forall P w /\ Forall (fun c => c <> sep) w) (split_on sep s).
Proof.
  induction 1 as [|c s Hc Hs IH]; cbn [split_on].
  - repeat constructor.
  - destruct (N.eqb_spec c sep) as [-> | Hne].
    + constructor; [split; constructor|exact IH].
    + destruct (split_on sep s) as [|w ws].
      * repeat constructor; assumption.
      * inversion IH as [|? ? [Hw1 Hw2] Hws]; subst.
        constructor; [|exact Hws]. split; constructor; assumption.
Qed.

Section DetectorProperties.
Context {C : CaseConversion}.

(** X2.  Every token of a string is non-empty, is not a stop-word, and is
    made of the code units [a-z0-9] only. *)
Theorem tokens_are_words (s : list N) :
  Forall (fun w => w <> [] /\ (w ∉ STOP)
                   /\ Forall (fun c => is_lower_alnum c = true) w)
         (tokens s).
Proof.
  unfold tokens. apply Forall_forall. intros w Hw.
  apply list_elem_of_filter in Hw as [[Hne Hstop] Hin].
  split; [exact Hne|]. split; [exact Hstop|].
  destruct (norm_normalized s) as [Hp _].
  pose proof (split_on_pieces plain 32 (norm s) Hp) as Hall.
  rewrite Forall_forall in Hall. destruct (Hall w Hin) as [H1 H2].
  apply Forall_forall. intros c Hc.
  rewrite Forall_forall in H1, H2.
  destruct (H1 c Hc) as [Ha | ->]; [exact Ha|].
  now destruct (H2 32 Hc).
Qed.

(** X3.  The normalized text has only the code units [a-z0-9] and the
    space, never two whitespace code units in a row, and no whitespace at
    either end: trimming it again changes nothing. *)
Theorem norm_shape (s : list N) :
  Forall plain (norm s)
  /\ single_spaced (norm s) = true
  /\ trim (norm s) = norm s.
Proof.
  destruct (norm_normalized s) as (Hp & Hs & Ht1 & Ht2).
  split; [exact Hp|]. split; [exact Hs|].
  unfold trim. now rewrite Ht1, Ht2.
Qed.

(** X4.  A candidate whose normalized text equals the normalized text of a
    question of the history is flagged: identical questions and variants
    that differ in case, punctuation or spacing only are repeats. *)
Theorem isRepeat_same_normal_form (question : list N)
    (history : list HistoryEntry) (h : HistoryEntry) :
  h ∈ history -> norm (q h) = norm question ->
  isRepeat question history = true.
Proof.
  intros Hin Hn. apply isRepeat_loop_spec. exists h. split; [exact Hin|].
  right. left. rewrite Hn. exists [], []. cbn [app]. now rewrite app_nil_r.
Qed.

(** X5.  A flag survives any extension of the history: entries added
    before or after never turn a repeat into a fresh question. *)
Theorem isRepeat_history_monotone (question : list N)
    (before history after : list HistoryEntry) :
  isRepeat question history = true ->
  isRepeat question (before ++ history ++ after) = true.
Proof.
  intros H. apply isRepeat_loop_spec in H as (h & Hin & Hd).
  apply isRepeat_loop_spec. exists h. split; [|exact Hd].
  apply elem_of_app. right. apply elem_of_app. now left.
Qed.

(** X6.  A history entry whose question normalizes to the empty string (a
    question of punctuation only, say) makes [isRepeat] flag every
    candidate: the empty string is contained in every normalized text. *)
Theorem isRepeat_blank_history_entry (question : list N)
    (history : list HistoryEntry) (h : HistoryEntry) :
  h ∈ history -> norm (q h) = [] -> isRepeat question history = true.
Proof.
  intros Hin Hn. apply isRepeat_loop_spec. exists h. split; [exact Hin|].
  right. left. rewrite Hn. now exists [], (norm question).
Qed.
End DetectorProperties.

Lemma isRepeat_same_normal_form_witness :
  isRepeat (C := basic_latin) (lit "IS IT... a man")
    [ {| q := lit "Is it alive?"; a := lit "yes" |};
      {| q := lit "Is it a man?"; a := lit "no" |} ] = true.
Proof.
  apply (isRepeat_same_normal_form (C := basic_latin) (lit "IS IT... a man") _
           {| q := lit "Is it a man?"; a := lit "no" |}).
  - right. left.
  - vm_compute. reflexivity.
Defined.

Lemma isRepeat_history_monotone_witness :
  isRepeat (C := basic_latin) (lit "is it a man")
    ([ {| q := lit "Is it alive?"; a := lit "yes" |} ]
       ++ [ {| q := lit "Is it a man?"; a := lit "no" |} ]
       ++ [ {| q := lit "Is it an animal?"; a := lit "no" |} ]) = true.
Proof.
  apply (isRepeat_history_monotone (C := basic_latin)).
  vm_compute. reflexivity.
Defined.

Lemma isRepeat_blank_history_entry_witness :
  isRepeat (C := basic_latin) (lit "Is it from the 20th century?")
    [ {| q := lit "?!"; a := lit "yes" |} ] = true.
Proof.
  apply (isRepeat_blank_history_entry (C := basic_latin) _ _
           {| q := lit "?!"; a := lit "yes" |}).
  - left.
  - vm_compute. reflexivity.
Defined.

(** ** The retry loop *)

Section LoopProperties.
Context {C : CaseConversion} {F : NumberFormat}.
Variable callFireworks : nat -> list Message -> completion (list (list N * value)).
Variable history : list HistoryEntry.

(** What an attempt that does not throw looked like. *)
Lemma attempt_cases s :
  match attempt callFireworks history s with
  | Next s' =>
      exists o,
        callFireworks (attempts s) (messages s) = Normal o
        /\ is_ask o /\ asked o <> [] /\ isRepeat (asked o) history = true
        /\ s' = after_attempt s [correction (asked o)] (with_question o)
  | Break s' =>
      exists o,
        callFireworks (attempts s) (messages s) = Normal o
        /\ ((is_ask o /\ asked o <> [] /\ isRepeat (asked o) history = false
             /\ s' = {| attempts := S (attempts s); messages := messages s;
                        obj := Some (with_question o) |})
            \/ (is_guess_or_final o /\ guessed o <> []
                /\ s' = {| attempts := S (attempts s); messages := messages s;
                           obj := Some (with_guess o) |}))
  | Raise _ => True
  end.
Proof.
  destruct (callFireworks (attempts s) (messages s)) as [o|e] eqn:Hc.
  2:{ now rewrite (attempt_throw _ _ _ _ Hc). }
  destruct (is_ask_dec o) as [Ha | Ha].
  - rewrite (attempt_ask _ _ _ _ Hc Ha). cbv zeta. fold (asked o).
    destruct (bool_decide (asked o = [])) eqn:Hq; [exact I|].
    apply bool_decide_eq_false in Hq.
    destruct (isRepeat (asked o) history) eqn:Hr.
    + exists o. repeat split; assumption.
    + exists o. split; [reflexivity|]. left.
      rewrite after_attempt_nil. repeat split; assumption.
  - destruct (is_guess_or_final_dec o) as [Hg | Hg].
    + rewrite (attempt_guess _ _ _ _ Hc Hg). fold (guessed o).
      destruct (bool_decide (guessed o = [])) eqn:Hq; [exact I|].
      apply bool_decide_eq_false in Hq.
      exists o. split; [reflexivity|]. right.
      rewrite after_attempt_nil. repeat split; assumption.
    + now rewrite (attempt_other _ _ _ _ Hc Ha Hg).
Qed.

Lemma with_guess_not_ask o : is_guess_or_final o -> ~ is_ask (with_guess o).
Proof.
  intros Hg Ha. unfold is_ask, with_guess in Ha.
  rewrite !get_set_other in Ha by lit_neq.
  exact (ask_not_guess o Ha Hg).
Qed.

Lemma with_question_question o :
  get_prop (lit "question") (with_question o) = VString (asked o).
Proof. unfold with_question. now rewrite get_set_same. Qed.

(** X7.  The loop only ever appends to the message sequence, and only
    corrective system messages: whatever state it returns, its messages are
    the ones it started with followed by one [correction] per attempt that
    produced a flagged question, at most one per attempt made. *)
Theorem retry_loop_appends_corrections (fuel : nat) (s s' : loop_state) :
  retry_loop callFireworks fuel history s = Some (Normal s') ->
  exists extra,
    messages s' = messages s ++ extra
    /\ (attempts s + length extra <= attempts s')%nat
    /\ Forall (fun m => role m = lit "system"
                        /\ exists question,
                             m = correction question
                             /\ question <> []
                             /\ isRepeat question history = true) extra.
Proof.
  revert s. induction fuel as [|fuel IH]; intros s Hr.
  - cbn [retry_loop] in Hr. destruct (attempts s <? 3)%nat; [discriminate|].
    injection Hr as <-. exists []. rewrite app_nil_r.
    repeat split; [cbn [length]; lia|constructor].
  - destruct (Nat.lt_ge_cases (attempts s) 3) as [Hlt | Hge].
    2:{ rewrite (retry_loop_done _ _ _ _ Hge) in Hr. injection Hr as <-.
        exists []. rewrite app_nil_r.
        repeat split; [cbn [length]; lia|constructor]. }
    rewrite (retry_loop_step _ _ _ _ Hlt) in Hr.
    pose proof (attempt_cases s) as Hcases.
    destruct (attempt callFireworks history s) as [s1|s1|e]; [| |discriminate].
    + destruct Hcases as (o & _ & _ & Hq & Hrep & ->).
      destruct (IH _ Hr) as (extra & Hm & Hlen & Hall).
      exists (correction (asked o) :: extra).
      cbn [after_attempt messages attempts] in Hm, Hlen.
      split; [rewrite Hm, <- app_assoc; reflexivity|].
      split; [cbn [length]; lia|].
      constructor; [|exact Hall]. split; [reflexivity|]. now exists (asked o).
    + injection Hr as <-.
      destruct Hcases as (o & _ & [(_ & _ & _ & ->) | (_ & _ & ->)]);
        exists []; rewrite app_nil_r; cbn [messages attempts];
        (repeat split; [cbn [length]; lia|constructor]).
Qed.

(** X8.  A question the loop returns before its third attempt is never a
    repeat: when the loop, entered with fewer than 3 attempts made, returns
    an ask action, its question is a non-empty string that [isRepeat] does
    not flag, unless this was the third attempt. *)
Theorem retry_loop_returns_fresh_question (fuel : nat) (s s' : loop_state)
    (o : list (list N * value)) :
  retry_loop callFireworks fuel history s = Some (Normal s') ->
  (attempts s < 3)%nat ->
  obj s' = Some o -> is_ask o ->
  exists question,
    get_prop (lit "question") o = VString question
    /\ question <> []
    /\ (isRepeat question history = false \/ attempts s' = 3%nat).
Proof.
  revert s. induction fuel as [|fuel IH]; intros s Hr Hlt Ho Ha.
  - cbn [retry_loop] in Hr.
    assert ((attempts s <? 3)%nat = true) as Hb by now apply Nat.ltb_lt.
    rewrite Hb in Hr. discriminate.
  - rewrite (retry_loop_step _ _ _ _ Hlt) in Hr.
    pose proof (attempt_cases s) as Hcases.
    destruct (attempt callFireworks history s) as [s1|s1|e]; [| |discriminate].
    + destruct Hcases as (o1 & _ & _ & Hq & Hrep & ->).
      destruct (Nat.lt_ge_cases (S (attempts s)) 3) as [Hlt1 | Hge1].
      * exact (IH _ Hr Hlt1 Ho Ha).
      * rewrite retry_loop_done in Hr by exact Hge1. injection Hr as <-.
        cbn [after_attempt obj attempts] in *. injection Ho as <-.
        exists (asked o1). rewrite with_question_question.
        split; [reflexivity|]. split; [exact Hq|]. right. lia.
    + injection Hr as <-.
      destruct Hcases as (o1 & _ & [(_ & Hq & Hrep & ->) | (Hg & _ & ->)]);
        cbn [obj] in Ho; injection Ho as <-.
      * exists (asked o1). rewrite with_question_question. auto.
      * now destruct (with_guess_not_ask o1 Hg).
Qed.
End LoopProperties.

Section EmptyHistory.
Context {C : CaseConversion} {F : NumberFormat}.
Variable callFireworks : nat -> list Message -> completion (list (list N * value)).

(** X9.  With an empty history nothing can be a repeat, so the loop makes
    exactly one attempt: whatever it returns was produced by the first
    call, and no corrective message was added. *)
Theorem retry_loop_empty_history (fuel : nat) (s s' : loop_state) :
  retry_loop callFireworks fuel [] s = Some (Normal s') ->
  (attempts s < 3)%nat ->
  attempts s' = S (attempts s) /\ messages s' = messages s.
Proof.
  intros Hr Hlt. destruct fuel as [|fuel].
  - cbn [retry_loop] in Hr.
    assert ((attempts s <? 3)%nat = true) as Hb by now apply Nat.ltb_lt.
    rewrite Hb in Hr. discriminate.
  - rewrite (retry_loop_step _ _ _ _ Hlt) in Hr.
    pose proof (attempt_cases callFireworks [] s) as Hcases.
    destruct (attempt callFireworks [] s) as [s1|s1|e]; [| |discriminate].
    + destruct Hcases as (o & _ & _ & _ & Hrep & _). discriminate.
    + injection Hr as <-.
      destruct Hcases as (o & _ & [(_ & _ & _ & ->) | (_ & _ & ->)]);
        split; reflexivity.
Qed.
End EmptyHistory.

Lemma retry_loop_appends_corrections_witness :
  exists extra,
    messages
      {| attempts := 2;
         messages := [correction (lit "is it a man")];
         obj := Some (ask_action (VString (lit "Is it famous?"))) |}
    = [] ++ extra
    /\ (0 + length extra <= 2)%nat
    /\ Forall (fun m => role m = lit "system"
                        /\ exists question,
                             m = correction question
                             /\ question <> []
                             /\ isRepeat (C := basic_latin) question
                                  [ {| q := lit "Is it a man?"; a := lit "yes" |} ]
                                = true) extra.
Proof.
  apply (retry_loop_appends_corrections (C := basic_latin) (F := exact_format)
           (scripted [ ask_action (VString (lit "is it a man"));
                       ask_action (VString (lit "Is it famous?")) ])
           [ {| q := lit "Is it a man?"; a := lit "yes" |} ] 3
           {| attempts := 0; messages := []; obj := None |}).
  vm_compute. reflexivity.
Defined.

Lemma retry_loop_returns_fresh_question_witness :
  exists question,
    get_prop (lit "question") (ask_action (VString (lit "Is it famous?")))
    = VString question
    /\ question <> []
    /\ (isRepeat (C := basic_latin) question
          [ {| q := lit "Is it a man?"; a := lit "yes" |} ] = false
        \/ 2%nat = 3%nat).
Proof.
  apply (retry_loop_returns_fresh_question (C := basic_latin) (F := exact_format)
           (scripted [ ask_action (VString (lit "is it a man"));
                       ask_action (VString (lit "Is it famous?")) ])
           [ {| q := lit "Is it a man?"; a := lit "yes" |} ] 3
           {| attempts := 0; messages := []; obj := None |}
           {| attempts := 2;
              messages := [correction (lit "is it a man")];
              obj := Some (ask_action (VString (lit "Is it famous?"))) |}).
  - vm_compute. reflexivity.
  - cbn. lia.
  - reflexivity.
  - reflexivity.
Defined.

Lemma retry_loop_empty_history_witness :
  attempts
    {| attempts := 1; messages := [];
       obj := Some (ask_action (VString (lit "Is it famous?"))) |}
  = 1%nat
  /\ messages
       {| attempts := 1; messages := [];
          obj := Some (ask_action (VString (lit "Is it famous?"))) |}
     = [].
Proof.
  apply (retry_loop_empty_history (C := basic_latin) (F := exact_format)
           (scripted [ask_action (VString (lit "Is it famous?"))]) 3
           {| attempts := 0; messages := []; obj := None |}).
  - vm_compute. reflexivity.
  - cbn. lia.
Defined.

(** ** The response interpreter *)

Lemma replace_from_deletes (m : list N -> option (nat * list N)) :
  (forall t len r, m t = Some (len, r) -> r = []) ->
  forall s skip c, c ∈ replace_from m skip s -> c ∈ s.
Proof.
  intros Hm. induction s as [|d s IH]; intros skip c Hc; [exact Hc|].
  cbn [replace_from] in Hc. destruct skip as [|k].
  - destruct (m (d :: s)) as [[len r]|] eqn:Hmatch.
    + rewrite (Hm _ _ _ Hmatch) in Hc. cbn [app] in Hc.
      right. exact (IH _ _ Hc).
    + apply elem_of_cons in Hc as [-> | Hc]; [left|right; exact (IH _ _ Hc)].
  - right. exact (IH _ _ Hc).
Qed.

Lemma strip_noise_deletes s c : c ∈ strip_noise s -> c ∈ s.
Proof.
  unfold strip_noise, replace_all. intros H.
  apply (replace_from_deletes match_think) with (skip := O).
  { intros t len r. unfold match_think.
    destruct (starts_with _ _ _); [|discriminate].
    destruct (find_first _ _ _); [|discriminate]. now intros [= _ <-]. }
  apply (replace_from_deletes match_fence_tag) with (skip := O).
  { intros t len r. unfold match_fence_tag.
    destruct (starts_with _ _ _); [|discriminate]. now intros [= _ <-]. }
  apply (replace_from_deletes match_fence) with (skip := O); [|exact H].
  intros t len r. unfold match_fence.
  destruct (starts_with _ _ _); [|discriminate]. now intros [= _ <-].
Qed.

Lemma trim_deletes s c : c ∈ trim s -> c ∈ s.
Proof.
  unfold trim. intros H.
  destruct (trimStart_suffix s) as [p Hp].
  destruct (trimEnd_prefix (trimStart s)) as [p' Hp'].
  rewrite Hp, Hp'. apply elem_of_app. right. apply elem_of_app. now left.
Qed.

Lemma first_position_absent c s : c ∉ s -> first_position c s = None.
Proof.
  induction s as [|d s IH]; intros Hc; [reflexivity|].
  rewrite first_position_cons. destruct (N.eqb_spec d c) as [-> | Hne].
  - destruct Hc. left.
  - rewrite IH; [reflexivity|]. intros H. apply Hc. now right.
Qed.

Lemma last_position_absent c s : c ∉ s -> last_position c s = None.
Proof.
  intros Hc. unfold last_position. rewrite first_position_absent; [reflexivity|].
  intros H. apply Hc. now apply elem_of_reverse.
Qed.

Lemma replace_from_no_match (m : list N -> option (nat * list N)) (P : N -> Prop) :
  (forall c t, P c -> m (c :: t) = None) ->
  forall s, Forall P s -> replace_from m O s = s.
Proof.
  intros Hm. induction 1 as [|c s Hc _ IH]; [reflexivity|].
  cbn [replace_from]. now rewrite (Hm c s Hc), IH.
Qed.

Lemma eq_ci_lt c : c <> 60 -> eq_ci 60 c = false.
Proof.
  intros Hc. unfold eq_ci, lower_ascii.
  change ((65 <=? 60) && (60 <=? 90)) with false. cbv iota.
  destruct ((65 <=? c) && (c <=? 90)) eqn:Hr; apply N.eqb_neq.
  - bool_prop. lia.
  - congruence.
Qed.

Lemma match_think_none c t : c <> 60 -> match_think (c :: t) = None.
Proof.
  intros Hc. unfold match_think.
  change (lit "<think>") with (60 :: lit "think>").
  cbn [starts_with]. now rewrite (eq_ci_lt c Hc).
Qed.

Lemma match_fence_tag_none c t : c <> 96 -> match_fence_tag (c :: t) = None.
Proof.
  intros Hc. unfold match_fence_tag.
  change (lit "```") with (96 :: lit "``").
  cbn [starts_with].
  assert ((96 =? c) = false) as -> by (apply N.eqb_neq; congruence).
  reflexivity.
Qed.

Lemma match_fence_none c t : c <> 96 -> match_fence (c :: t) = None.
Proof.
  intros Hc. unfold match_fence.
  change (lit "```") with (96 :: lit "``").
  cbn [starts_with].
  assert ((96 =? c) = false) as -> by (apply N.eqb_neq; congruence).
  reflexivity.
Qed.

Lemma strip_noise_plain_text s :
  Forall (fun c => c <> 60 /\ c <> 96) s -> strip_noise s = s.
Proof.
  intros H. unfold strip_noise, replace_all.
  rewrite (replace_from_no_match match_think (fun c => c <> 60 /\ c <> 96) );
    [|intros c t [Hc _]; now apply match_think_none|exact H].
  rewrite (replace_from_no_match match_fence_tag (fun c => c <> 60 /\ c <> 96));
    [|intros c t [_ Hc]; now apply match_fence_tag_none|exact H].
  apply (replace_from_no_match match_fence (fun c => c <> 60 /\ c <> 96));
    [|exact H].
  intros c t [_ Hc]. now apply match_fence_none.
Qed.

Lemma cleanup_plain_text s :
  Forall (fun c => c <> 44 /\ c <> 58 /\ c <> 8220 /\ c <> 8221) s ->
  cleanup s = s.
Proof.
  intros H. unfold cleanup, replace_all.
  set (P := fun c : N => c <> 44 /\ c <> 58 /\ c <> 8220 /\ c <> 8221) in *.
  rewrite (replace_from_no_match match_trailing_comma P);
    [|intros c t (Hc & _); now apply match_trailing_comma_none|exact H].
  rewrite (replace_from_no_match match_single_quoted P);
    [|intros c t (_ & Hc & _); now apply match_single_quoted_none|exact H].
  apply (replace_from_no_match match_smart_quote P); [|exact H].
  intros c t (_ & _ & H1 & H2). unfold match_smart_quote.
  destruct (N.eqb_spec c 8220); [contradiction|].
  destruct (N.eqb_spec c 8221); [contradiction|]. reflexivity.
Qed.

Lemma last_position_snoc c s : last_position c (s ++ [c]) = Some (length s).
Proof.
  unfold last_position. rewrite reverse_snoc, first_position_cons, N.eqb_refl.
  cbn [fmap option_fmap option_map]. rewrite length_app. cbn [length].
  f_equal. lia.
Qed.

Section InterpreterProperties.
Context {F : NumberFormat} {J : JsonParser}.

Lemma extractJson_no_braces (s : list N) :
  123 ∉ s \/ 125 ∉ s -> extractJson (VString s) = Normal VNull.
Proof.
  intros H. destruct s as [|c s]; [reflexivity|].
  rewrite extractJson_truthy by reflexivity. f_equal.
  cbn [ToString]. cbv zeta.
  set (t := trim (strip_noise (c :: s))).
  assert (forall d, d ∉ c :: s -> d ∉ t) as Hsub.
  { intros d Hd Hin. apply Hd. now apply strip_noise_deletes, trim_deletes. }
  destruct H as [H | H].
  - now rewrite (first_position_absent 123 t (Hsub _ H)).
  - rewrite (last_position_absent 125 t (Hsub _ H)).
    now destruct (first_position 123 t).
Qed.

(** X10.  A text with no opening brace, or with no closing brace, is
    interpreted as null: stripping reasoning blocks and fences and trimming
    only delete code units, so no brace can appear. *)
Theorem extractJson_without_braces (s : list N) :
  123 ∉ s \/ 125 ∉ s -> extractJson (VString s) = Normal VNull.
Proof. apply extractJson_no_braces. Qed.

(** X11.  A text that is one brace-delimited block, with no backquote and
    no [<] in it, is parsed as it stands: the result is what [JSON.parse]
    gives for the whole text, else what it gives for the repaired text,
    else null. *)
Theorem extractJson_plain_object (body : list N) :
  Forall (fun c => c <> 60 /\ c <> 96) body ->
  extractJson (VString (123 :: body ++ [125]))
  = Normal
      match JSON_parse (123 :: body ++ [125]) with
      | Some v => v
      | None =>
          match JSON_parse (cleanup (123 :: body ++ [125])) with
          | Some v => v
          | None => VNull
          end
      end.
Proof.
  intros Hb. rewrite extractJson_truthy by reflexivity. f_equal.
  cbn [ToString]. cbv zeta.
  set (s := 123 :: body ++ [125]).
  assert (strip_noise s = s) as ->.
  { apply strip_noise_plain_text. unfold s. constructor; [split; lia|].
    apply Forall_app. split; [exact Hb|]. constructor; [split; lia|constructor]. }
  assert (trim s = s) as ->.
  { unfold trim, s. cbn [trimStart]. change (is_ws 123) with false. cbv iota.
    change (123 :: body ++ [125]) with ((123 :: body) ++ [125]).
    now apply trimEnd_snoc. }
  assert (first_position 123 s = Some O) as -> by reflexivity.
  assert (last_position 125 s = Some (S (length body))) as ->.
  { unfold s. change (123 :: body ++ [125]) with ((123 :: body) ++ [125]).
    now rewrite last_position_snoc. }
  assert (region 0 (S (length body)) s = s) as ->; [|reflexivity].
  unfold region. rewrite drop_0. apply take_ge. unfold s.
  cbn [length]. rewrite length_app. cbn [length]. lia.
Qed.

(** X12.  The repair pass changes nothing in a text that has no comma, no
    colon and no curly double quote. *)
Theorem cleanup_without_repairable (s : list N) :
  Forall (fun c => c <> 44 /\ c <> 58 /\ c <> 8220 /\ c <> 8221) s ->
  cleanup s = s.
Proof. apply cleanup_plain_text. Qed.
End InterpreterProperties.

(** ** The inference client *)


Section ClientProperties.
Context {F : NumberFormat} {J : JsonParser}.
Variable fetch : nat -> Request -> completion HttpResponse.


(** X14.  The client sends one request to the primary model with the
    messages it was given, and at most one more: a repair request to the
    smaller model, sent only after a successful response whose text did not
    yield a usable object, and quoting that text. *)
Theorem callFireworks_request_log (call : nat) (messages : list Message) :
  let first := {| req_model := primary_model; req_messages := messages |} in
  fst (callFireworks_run fetch call messages) = [first]
  \/ exists resp obj,
       fetch call first = Normal resp
       /\ resp_ok resp = true
       /\ extractJson (completion_text (default (VObject []) (resp_json resp)))
          = Normal obj
       /\ unusable obj = true
       /\ fst (callFireworks_run fetch call messages)
          = [ first;
              {| req_model := repair_model;
                 req_messages :=
                   repair_messages
                     (completion_text (default (VObject []) (resp_json resp))) |} ].
Proof.
  intros first. unfold callFireworks_run. cbv zeta. fold first.
  destruct (fetch call first) as [resp|e] eqn:Hf; [|now left].
  destruct (resp_ok resp) eqn:Hok; cbn [negb]; [|now left].
  destruct (extractJson _) as [obj1|e] eqn:He; [|now left].
  destruct (unusable obj1) eqn:Hu1; [|now left].
  right. exists resp, obj1. repeat split; try assumption.
  destruct (fetch call {| req_model := repair_model; req_messages := _ |})
    as [retry|e]; [|reflexivity].
  destruct (extractJson (completion_text (default (VObject []) (resp_json retry))))
    as [obj2|e]; [|reflexivity].
  destruct (unusable obj2); reflexivity.
Qed.



(** X16.  When neither the primary completion nor the repaired one has
    both an opening and a closing brace, the client fails with [Parse
    error], after exactly two requests. *)
Theorem callFireworks_parse_error (call : nat) (messages : list Message)
    (resp retry : HttpResponse) (text text' : list N) :
  fetch call {| req_model := primary_model; req_messages := messages |}
    = Normal resp ->
  resp_ok resp = true ->
  completion_text (default (VObject []) (resp_json resp)) = VString text ->
  123 ∉ text \/ 125 ∉ text ->
  fetch call {| req_model := repair_model;
                req_messages := repair_messages (VString text) |}
    = Normal retry ->
  completion_text (default (VObject []) (resp_json retry)) = VString text' ->
  123 ∉ text' \/ 125 ∉ text' ->
  callFireworks_run fetch call messages
  = ([ {| req_model := primary_model; req_messages := messages |};
       {| req_model := repair_model;
          req_messages := repair_messages (VString text) |} ],
     Throw (lit "Parse error")).
Proof.
  intros Hf Hok Ht Hb Hf' Ht' Hb'.
  unfold callFireworks_run. cbv zeta. rewrite Hf, Hok. cbn [negb].
  rewrite Ht, (extractJson_no_braces text Hb).
  change (unusable VNull) with true. cbv iota.
  rewrite Hf', Ht', (extractJson_no_braces text' Hb').
  reflexivity.
Qed.
End ClientProperties.

Section EndToEnd.
Context {C : CaseConversion} {F : NumberFormat} {J : JsonParser}.
Variable fetch : nat -> Request -> completion HttpResponse.


End EndToEnd.

(** ** What the detector and the validation leave alone *)

Section FrameProperties.
Context {C : CaseConversion} {F : NumberFormat}.

(** X18.  [isRepeat] reads the questions of the history only: two
    histories with the same questions in the same order, whatever the
    answers, give the same verdict. *)
Theorem isRepeat_ignores_answers (question : list N)
    (history history' : list HistoryEntry) :
  map q history = map q history' ->
  isRepeat question history = isRepeat question history'.
Proof.
  unfold isRepeat. revert history'.
  induction history as [|h rest IH]; intros [|h' rest'] Hq; try discriminate.
  - reflexivity.
  - cbn [map] in Hq. injection Hq as Hh Hrest.
    cbn [isRepeat_loop]. unfold repeat_of. rewrite Hh, (IH rest' Hrest).
    reflexivity.
Qed.

(** X19.  The verdict depends on the candidate through its normalized text
    only: two candidates with the same normalized text get the same
    verdict, and normalizing the candidate beforehand changes nothing. *)
Theorem isRepeat_normalized_candidate (question question' : list N)
    (history : list HistoryEntry) :
  norm question = norm question' ->
  isRepeat question history = isRepeat question' history
  /\ isRepeat (norm question) history = isRepeat question history.
Proof.
  assert (forall q1 q2, norm q1 = norm q2 ->
            isRepeat q1 history = isRepeat q2 history) as Hsame.
  { intros q1 q2 Hn. unfold isRepeat, tokens. rewrite Hn.
    induction history as [|h rest IH]; [reflexivity|].
    cbn [isRepeat_loop]. unfold repeat_of. rewrite Hn, IH. reflexivity. }
  intros Hn. split; [now apply Hsame|].
  apply Hsame. apply norm_fixed, norm_normalized.
Qed.

Variable callFireworks : nat -> list Message -> completion (list (list N * value)).

(** X20.  Validation rewrites the fields of the action's own shape and
    nothing else: in the object an attempt keeps, every property other than
    [question], [guess] and [confidence] has the value the inference client
    returned, and an ask keeps its [guess] and [confidence] too. *)
Theorem attempt_keeps_other_fields (history : list HistoryEntry)
    (s s' : loop_state) (o : list (list N * value)) :
  callFireworks (attempts s) (messages s) = Normal o ->
  attempt callFireworks history s = Next s'
  \/ attempt callFireworks history s = Break s' ->
  exists o',
    obj s' = Some o'
    /\ (forall key,
          key <> lit "question" -> key <> lit "guess" ->
          key <> lit "confidence" ->
          get_prop key o' = get_prop key o)
    /\ (is_ask o ->
        get_prop (lit "guess") o' = get_prop (lit "guess") o
        /\ get_prop (lit "confidence") o' = get_prop (lit "confidence") o).
Proof.
  intros Hc Hs'. pose proof (attempt_cases callFireworks history s) as Hcases.
  destruct Hs' as [Hs' | Hs']; rewrite Hs' in Hcases.
  - destruct Hcases as (o1 & Hc1 & Ha & _ & _ & ->).
    rewrite Hc in Hc1. injection Hc1 as <-.
    exists (with_question o). split; [reflexivity|]. unfold with_question.
    split.
    + intros key Hk _ _. apply get_set_other. congruence.
    + intros _. split; apply get_set_other; lit_neq.
  - destruct Hcases as (o1 & Hc1 & [(Ha & _ & _ & ->) | (Hg & _ & ->)]);
      rewrite Hc in Hc1; injection Hc1 as <-.
    + exists (with_question o). split; [reflexivity|]. unfold with_question.
      split.
      * intros key Hk _ _. apply get_set_other. congruence.
      * intros _. split; apply get_set_other; lit_neq.
    + exists (with_guess o). split; [reflexivity|]. unfold with_guess.
      split.
      * intros key _ Hk1 Hk2. rewrite !get_set_other by congruence. reflexivity.
      * intros Ha. now destruct (ask_not_guess o Ha Hg).
Qed.
End FrameProperties.

Lemma isRepeat_ignores_answers_witness :
  isRepeat (C := basic_latin) (lit "is it a man")
    [ {| q := lit "Is it a man?"; a := lit "yes" |} ]
  = isRepeat (C := basic_latin) (lit "is it a man")
      [ {| q := lit "Is it a man?"; a := lit "no" |} ].
Proof.
  apply (isRepeat_ignores_answers (C := basic_latin)). reflexivity.
Defined.

Lemma isRepeat_normalized_candidate_witness :
  isRepeat (C := basic_latin) (lit "Is it a MAN?")
    [ {| q := lit "Is it a man?"; a := lit "yes" |} ]
  = isRepeat (C := basic_latin) (lit "is it a man")
      [ {| q := lit "Is it a man?"; a := lit "yes" |} ].
Proof.
  apply (proj1 (isRepeat_normalized_candidate (C := basic_latin)
                  (lit "Is it a MAN?") (lit "is it a man")
                  [ {| q := lit "Is it a man?"; a := lit "yes" |} ]
                  ltac:(vm_compute; reflexivity))).
Defined.

Lemma attempt_keeps_other_fields_witness :
  exists o',
    obj {| attempts := 1; messages := [];
           obj := Some (ask_action (VString (lit "Is it real?"))
                          ++ [ (lit "note", VBool true) ]) |} = Some o'
    /\ (forall key,
          key <> lit "question" -> key <> lit "guess" ->
          key <> lit "confidence" ->
          get_prop key o'
          = get_prop key (ask_action (VString (lit "Is it real?"))
                            ++ [ (lit "note", VBool true) ]))
    /\ (is_ask (ask_action (VString (lit "Is it real?"))
                  ++ [ (lit "note", VBool true) ]) ->
        get_prop (lit "guess") o'
        = get_prop (lit "guess") (ask_action (VString (lit "Is it real?"))
                                    ++ [ (lit "note", VBool true) ])
        /\ get_prop (lit "confidence") o'
           = get_prop (lit "confidence")
               (ask_action (VString (lit "Is it real?"))
                  ++ [ (lit "note", VBool true) ])).
Proof.
  apply (attempt_keeps_other_fields (C := basic_latin) (F := exact_format)
           (scripted [ ask_action (VString (lit "Is it real?"))
                         ++ [ (lit "note", VBool true) ] ])
           [] {| attempts := 0; messages := []; obj := None |} _ _ eq_refl).
  right. vm_compute. reflexivity.
Defined.

(** ** Instances of the properties above *)

Lemma extractJson_without_braces_witness :
  extractJson (F := exact_format) (J := sample_parser)
    (VString (lit "no json here")) = Normal VNull.
Proof.
  apply (extractJson_without_braces (F := exact_format) (J := sample_parser)
           (lit "no json here")).
  left. vm_compute. intros H. apply list_elem_of_In in H. cbn in H.
  repeat (destruct H as [H | H]; [discriminate H|]). exact H.
Defined.

Lemma extractJson_plain_object_witness :
  extractJson (F := exact_format) (J := sample_parser) (VString sample_ask_text)
  = Normal (VObject (ask_action (VString (lit "Is it real?")))).
Proof.
  apply (extractJson_plain_object (F := exact_format) (J := sample_parser)
           ([34] ++ lit "type" ++ [34] ++ lit ":" ++ [34] ++ lit "ask" ++ [34]
            ++ lit "," ++ [34] ++ lit "question" ++ [34] ++ lit ":" ++ [34]
            ++ lit "Is it real?" ++ [34])).
  vm_compute. repeat (constructor; [split; discriminate|]). constructor.
Defined.

Lemma cleanup_without_repairable_witness : cleanup (lit "{x}") = lit "{x}".
Proof.
  apply (cleanup_without_repairable (lit "{x}")).
  vm_compute. repeat (constructor; [repeat split; discriminate|]). constructor.
Defined.



Lemma callFireworks_parse_error_witness :
  callFireworks_run (F := exact_format) (J := sample_parser)
    (answering (lit "no json here")) 0 []
  = ([ {| req_model := primary_model; req_messages := [] |};
       {| req_model := repair_model;
          req_messages := repair_messages (F := exact_format)
                            (VString (lit "no json here")) |} ],
     Throw (lit "Parse error")).
Proof.
  assert (123 ∉ lit "no json here") as Hb.
  { vm_compute. intros H. apply list_elem_of_In in H. cbn in H.
    repeat (destruct H as [H | H]; [discriminate H|]). exact H. }
  apply (callFireworks_parse_error (F := exact_format) (J := sample_parser)
           (answering (lit "no json here")) 0 []
           {| resp_ok := true;
              resp_json :=
                Some (VObject
                  [ (lit "choices",
                     VArray [ VObject [ (lit "message",
                       VObject [ (lit "content",
                                  VString (lit "no json here")) ]) ] ]) ]) |}
           {| resp_ok := true;
              resp_json :=
                Some (VObject
                  [ (lit "choices",
                     VArray [ VObject [ (lit "message",
                       VObject [ (lit "content",
                                  VString (lit "no json here")) ]) ] ]) ]) |}
           (lit "no json here") (lit "no json here")
           eq_refl eq_refl eq_refl (or_introl Hb) eq_refl eq_refl (or_introl Hb)).
Defined.


Example step_with_fenced_answer :
  api_step (C := basic_latin) (F := exact_format)
    (callFireworks (F := exact_format) (J := sample_parser)
       (answering (lit "```json" ++ [10] ++ sample_ask_text ++ [10] ++ lit "```")))
    true empty_body
  = Some (Response 200 (VObject (ask_action (VString (lit "Is it real?"))))).
Proof. vm_compute. reflexivity. Qed.
